(** * Model lifecycle and dispatch engine: a shallow embedding

    This development embeds the dispatch core of the "Sistem AI API Lokal"
    repository (ModelManager, the three model handles, the Trainer and the
    rate-limiting middleware of the API server) and states its properties.

    Conventions.
    - A JavaScript plain object used as a dictionary is a [gmap string V] of
      its own enumerable properties; property reads go through
      [JS.get], which also sees the properties inherited from
      [Object.prototype], exactly as the [obj[key]] expression of the source.
    - A [Map] is a [gmap] with plain lookup and insert.
    - [throw]/[try]/[catch] is the [Result] type; an [Error] is represented
      by its [message].
    - The outside world (file system, inference libraries, JSON parser) is a
      record of oracles, [Env]; the clock is an explicit argument.
    - Timestamps are integers (milliseconds, as [Date.now()] returns). *)

From Stdlib Require Import QArith Ascii.
From stdpp Require Import gmap strings list fin_maps.

Open Scope string_scope.
Open Scope list_scope.
Open Scope Z_scope.

(** ** Results of fallible code *)

Inductive Result (A : Type) : Type :=
  | Ok (a : A)
  | Throw (message : string).
Arguments Ok {A} a.
Arguments Throw {A} message.

Definition is_ok {A} (r : Result A) : bool :=
  match r with Ok _ => true | Throw _ => false end.

(** ** The rate-limiting middleware ([rateLimiter] of the API server, in
       src/config/config.js) *)

Module RateLimiter.

(** [config.security.rateLimiting]: the two numbers destructured by
    [const { windowMs, max } = options]. *)
Record Options := { windowMs : Z; max : Z }.

(** What the middleware does with the request: call [next()] or answer
    with status 429. *)
Inductive Response := Next | Status429.

Global Instance Response_eq_dec : EqDecision Response.
Proof. solve_decision. Defined.

(** [requests.get(ip)] once the entry exists; an [ip] without an entry
    gets the empty list first. *)
Definition stored (requests : gmap string (list Z)) (ip : string) : list Z :=
  default [] (requests !! ip).

(** [.filter(time => now - time < windowMs)] *)
Definition userRequests (o : Options) (requests : gmap string (list Z))
    (ip : string) (now : Z) : list Z :=
  filter (λ time, now - time < windowMs o) (stored requests ip).

(** One run of the middleware returned by [rateLimiter(options)]:
    [requests] is the [Map] captured by the closure, [ip] is [req.ip] and
    [now] is [Date.now()]. *)
Definition rateLimiter (o : Options) (requests : gmap string (list Z))
    (ip : string) (now : Z) : Response * gmap string (list Z) :=
  let requests1 :=
    match requests !! ip with
    | Some _ => requests
    | None => <[ip := []]> requests
    end in
  let kept := userRequests o requests1 ip now in
  if bool_decide (max o ≤ Z.of_nat (List.length kept)) then (Status429, requests1)
  else (Next, <[ip := kept ++ [now]]> requests1).

(** A sequence of requests [(ip, now)] handled one after the other. *)
Fixpoint run (o : Options) (requests : gmap string (list Z))
    (trace : list (string * Z)) : list (string * Response) * gmap string (list Z) :=
  match trace with
  | [] => ([], requests)
  | (ip, now) :: rest =>
      let '(r, requests') := rateLimiter o requests ip now in
      let '(rs, final) := run o requests' rest in
      ((ip, r) :: rs, final)
  end.

(** The decisions taken for one client. *)
Definition decisions_of (ip : string) (l : list (string * Response)) : list Response :=
  (filter (λ p, p.1 = ip) l).*2.

(** The requests of one client. *)
Definition requests_of (ip : string) (trace : list (string * Z)) : list (string * Z) :=
  filter (λ p, p.1 = ip) trace.

(** Number of recorded timestamps of [ip] inside the closed window
    [[now - windowMs, now]]. *)
Definition count_in_window (o : Options) (requests : gmap string (list Z))
    (ip : string) (now : Z) : nat :=
  List.length (filter (λ time, now - windowMs o ≤ time ∧ time ≤ now) (stored requests ip)).

(** No stored list holds more than [max] timestamps. *)
Definition bounded (o : Options) (requests : gmap string (list Z)) : Prop :=
  ∀ k, Z.of_nat (List.length (stored requests k)) ≤ max o.

(** The admission rule in the words of the specification: timestamps older
    than [now - windowMs] are pruned, the request is rejected when the
    remaining count is at least [max], and otherwise [now] is recorded. *)
Definition spec_remaining (o : Options) (requests : gmap string (list Z))
    (ip : string) (now : Z) : list Z :=
  filter (λ time, ¬ time < now - windowMs o) (stored requests ip).

Definition spec_decision (o : Options) (requests : gmap string (list Z))
    (ip : string) (now : Z) : Response :=
  if bool_decide (max o ≤ Z.of_nat (List.length (spec_remaining o requests ip now)))
  then Status429 else Next.

End RateLimiter.

(** ** JavaScript primitives used by the source *)

Module JS.

Definition lower_ascii (c : ascii) : ascii :=
  let n := nat_of_ascii c in
  if ((65 <=? n) && (n <=? 90))%nat then ascii_of_nat (n + 32) else c.

(** [String.prototype.toLowerCase] on the ASCII range (model names and
    route parameters are ASCII). *)
Fixpoint toLowerCase (s : string) : string :=
  match s with
  | EmptyString => EmptyString
  | String c rest => String (lower_ascii c) (toLowerCase rest)
  end.

(** [String.prototype.slice(n)] for [0 <= n]: the suffix from index [n]. *)
Fixpoint slice (n : nat) (s : string) : string :=
  match n, s with
  | O, _ => s
  | S n', String _ rest => slice n' rest
  | S _, EmptyString => EmptyString
  end.

(** [String.prototype.endsWith] *)
Definition endsWith (s suffix : string) : bool :=
  bool_decide (slice (String.length s - String.length suffix) s = suffix).

(** The property names every plain object inherits from
    [Object.prototype]. *)
Definition Object_prototype : list string :=
  [ "constructor"; "__defineGetter__"; "__defineSetter__"; "hasOwnProperty";
    "__lookupGetter__"; "__lookupSetter__"; "isPrototypeOf";
    "propertyIsEnumerable"; "toString"; "valueOf"; "__proto__";
    "toLocaleString" ].

(** The value of the expression [obj[key]] for a plain object [obj]. *)
Inductive Property (V : Type) : Type :=
  | Own (v : V)                (* an own property of [obj] *)
  | Inherited (name : string)  (* a member of [Object.prototype]; truthy *)
  | Undefined.
Arguments Own {V} v.
Arguments Inherited {V} name.
Arguments Undefined {V}.

(** [obj[key]]: own properties first, then the prototype chain. *)
Definition get {V} (obj : gmap string V) (key : string) : Property V :=
  match obj !! key with
  | Some v => Own v
  | None =>
      if bool_decide (key ∈ Object_prototype) then Inherited key else Undefined
  end.

(** [obj[key] = v] for a plain object [obj]: an own property is created or
    overwritten, except for the key [__proto__], whose inherited setter
    never creates an own property. *)
Definition set {V} (obj : gmap string V) (key : string) (v : V) : gmap string V :=
  if bool_decide (key = "__proto__") then obj else <[key := v]> obj.

(** [Object.entries(obj)]: the own enumerable properties. *)
Definition entries {V} (obj : gmap string V) : list (string * V) :=
  map_to_list obj.

End JS.

(** ** JSON documents (training data, option objects) *)

#[warnings="-register-all"]
Inductive JSON : Type :=
  | JNull
  | JBool (b : bool)
  | JNum (q : Q)
  | JStr (s : string)
  | JArr (items : list JSON)
  | JObj (fields : list (string * JSON)).

(** JavaScript truthiness of a parsed JSON value. *)
Definition truthy (v : JSON) : bool :=
  match v with
  | JNull => false
  | JBool b => b
  | JNum q => negb (Qeq_bool q 0)
  | JStr s => negb (bool_decide (s = ""))
  | JArr _ | JObj _ => true
  end.

(** [Array.prototype.concat]: an array argument is spread one level, any
    other value is appended as a single element. *)
Definition Array_concat (acc : list JSON) (data : JSON) : list JSON :=
  match data with
  | JArr items => acc ++ items
  | v => acc ++ [v]
  end.

(** ** The outside world *)

(** A reference to a backend object created by an inference library. *)
Definition Instance := nat.

(** [config.models.<name>] *)
Record ModelConfig := {
  path : string;
  contextSize : Z;
  batchSize : Z;
  threads : Z
}.

(** The collaborators the dispatch core calls into.  Every call may throw. *)
Record Env := {
  (* fs *)
  existsSync : string → bool;
  readdirSync : string → Result (list string);
  readFileSync : string → Result string;
  mkdirSync : string → Result unit;
  writeFileSync : string → Result unit;
  (* path *)
  path_join : string → string → string;
  path_dirname : string → string;
  (* JSON *)
  JSON_parse : string → Result JSON;
  (* node-llama-cpp: [new LLModel(...)], [model.load()] and
     [model.generate()], the latter yielding [result.text] *)
  LLModel_new : ModelConfig → Result Instance;
  LLModel_load : Instance → Result unit;
  LLModel_generate : Instance → string → gmap string JSON → Result string;
  (* huggingface-hub: [pipeline('text-generation', ...)] and the call of the
     pipeline; the latter yields [result[0].generated_text] *)
  pipeline : string → Result Instance;
  pipeline_call : Instance → string → gmap string JSON → Result string;
  (* onnxruntime-node: [ort.InferenceSession.create] *)
  InferenceSession_create : string → Z → Result Instance
}.

(** ** Model handles ([BaseModel] and [MistralModel] in
       src/models/MistralModel.js, [LlamaModel] and [GptjModel] in
       src/training/trainer.js) *)

Module Model.

Inductive Kind := LlamaModel | MistralModel | GptjModel.

Global Instance Kind_eq_dec : EqDecision Kind.
Proof. solve_decision. Defined.

(** The fields of a handle.  [backend] is the reference the subclass owns:
    [this.model] (LlamaModel), [this.pipeline] (MistralModel) or
    [this.session] (GptjModel); [tokenizer] says whether GptjModel's
    placeholder tokenizer is set. *)
Record Handle := {
  kind : Kind;
  config : ModelConfig;
  isLoaded : bool;
  backend : option Instance;
  tokenizer : bool
}.

(** [this.modelPath = config.path] *)
Definition modelPath (h : Handle) : string := path (config h).

(** The subclass constructors: [super(config)] sets [isLoaded = false]
    and the owned reference to [null]. *)
Definition new (k : Kind) (c : ModelConfig) : Handle :=
  {| kind := k; config := c; isLoaded := false; backend := None;
     tokenizer := false |}.

Definition set_isLoaded (b : bool) (h : Handle) : Handle :=
  {| kind := kind h; config := config h; isLoaded := b;
     backend := backend h; tokenizer := tokenizer h |}.

Definition set_backend (i : option Instance) (h : Handle) : Handle :=
  {| kind := kind h; config := config h; isLoaded := isLoaded h;
     backend := i; tokenizer := tokenizer h |}.

Definition set_tokenizer (b : bool) (h : Handle) : Handle :=
  {| kind := kind h; config := config h; isLoaded := isLoaded h;
     backend := backend h; tokenizer := b |}.

(** The library object [load] creates for the handle, per subclass. *)
Definition created (env : Env) (h : Handle) : Result Instance :=
  match kind h with
  | LlamaModel => LLModel_new env (config h)
  | MistralModel => pipeline env (modelPath h)
  | GptjModel =>
      InferenceSession_create env (path_join env (modelPath h) "model.onnx")
        (threads (config h))
  end.

(** The outcome of the library calls [load()] makes after the path check,
    per subclass: the instance that was created and, for LlamaModel, loaded,
    or the error of the call that failed. *)
Definition initialised (env : Env) (h : Handle) : Result Instance :=
  match kind h with
  | LlamaModel =>
      match LLModel_new env (config h) with
      | Throw e => Throw e
      | Ok m =>
          match LLModel_load env m with
          | Throw e => Throw e
          | Ok _ => Ok m
          end
      end
  | MistralModel => pipeline env (modelPath h)
  | GptjModel =>
      InferenceSession_create env (path_join env (modelPath h) "model.onnx")
        (threads (config h))
  end.

(** The body of [load()] after the path check, per subclass. *)
Definition init_backend (env : Env) (h : Handle) : Result bool * Handle :=
  match kind h with
  | LlamaModel =>
      match LLModel_new env (config h) with
      | Throw e => (Throw e, set_isLoaded false h)
      | Ok m =>
          let h1 := set_backend (Some m) h in
          match LLModel_load env m with
          | Throw e => (Throw e, set_isLoaded false h1)
          | Ok _ => (Ok true, set_isLoaded true h1)
          end
      end
  | MistralModel =>
      match pipeline env (modelPath h) with
      | Throw e => (Throw e, set_isLoaded false h)
      | Ok p => (Ok true, set_isLoaded true (set_backend (Some p) h))
      end
  | GptjModel =>
      match InferenceSession_create env
              (path_join env (modelPath h) "model.onnx") (threads (config h)) with
      | Throw e => (Throw e, set_isLoaded false h)
      | Ok s =>
          (Ok true, set_isLoaded true (set_tokenizer true (set_backend (Some s) h)))
      end
  end.

(** [async load()]: no test of [this.isLoaded]; the [catch] block resets
    [isLoaded] and rethrows. *)
Definition load (env : Env) (h : Handle) : Result bool * Handle :=
  if existsSync env (modelPath h) then init_backend env h
  else (Throw ("Model path tidak ditemukan: " +:+ modelPath h),
        set_isLoaded false h).

(** Default generation options of each subclass. *)
Definition defaultOptions (k : Kind) : gmap string JSON :=
  match k with
  | MistralModel =>
      <["temperature" := JNum (7 # 10)]>
      (<["max_new_tokens" := JNum (512 # 1)]>
      (<["top_p" := JNum (95 # 100)]>
      (<["top_k" := JNum (40 # 1)]>
      (<["repetition_penalty" := JNum (11 # 10)]>
      (<["do_sample" := JBool true]> ∅)))))
  | LlamaModel | GptjModel =>
      <["temperature" := JNum (7 # 10)]>
      (<["maxTokens" := JNum (512 # 1)]>
      (<["topP" := JNum (95 # 100)]>
      (<["topK" := JNum (40 # 1)]>
      (<["repetitionPenalty" := JNum (11 # 10)]> ∅))))
  end.

(** [{ ...defaultOptions, ...options }] *)
Definition mergedOptions (k : Kind) (options : gmap string JSON) : gmap string JSON :=
  options ∪ defaultOptions k.

(** The [try] block of [generate]: the call into the owned backend.  A
    [null] reference makes the call itself throw a [TypeError].  GptjModel
    feeds a simulated token stream to a placeholder decoder that returns
    a constant text; the loop of [_generateTokens], which pushes
    [maxTokens] random numbers that the decoder ignores, is taken to end,
    as it does for the default 512 and every count an array can hold.
    MistralModel cuts [prompt.length] leading characters, one [ascii] of
    the string standing for one UTF-16 code unit, which is exact for
    text in the ASCII range. *)
Definition run_backend (env : Env) (h : Handle) (prompt : string)
    (options : gmap string JSON) : Result string :=
  match kind h with
  | LlamaModel =>
      match backend h with
      | Some m => LLModel_generate env m prompt (mergedOptions LlamaModel options)
      | None => Throw "Cannot read properties of null (reading 'generate')"
      end
  | MistralModel =>
      match backend h with
      | Some p =>
          match pipeline_call env p prompt (mergedOptions MistralModel options) with
          | Ok generated_text => Ok (JS.slice (String.length prompt) generated_text)
          | Throw e => Throw e
          end
      | None => Throw "this.pipeline is not a function"
      end
  | GptjModel =>
      if tokenizer h then Ok "Teks hasil decode dari GPT-J"
      else Throw "Cannot read properties of null (reading 'encode')"
  end.

(** [async generate(prompt, options)]: [if (!this.isLoaded) await
    this.load()], then the backend call. *)
Definition generate (env : Env) (h : Handle) (prompt : string)
    (options : gmap string JSON) : Result string * Handle :=
  if isLoaded h then (run_backend env h prompt options, h)
  else
    match load env h with
    | (Throw e, h1) => (Throw e, h1)
    | (Ok _, h1) => (run_backend env h1 prompt options, h1)
    end.

(** The record returned by [train]. *)
Record TrainingResults := {
  status : string;
  epochs : JSON;
  loss : Q;
  accuracy : Q;
  timestamp : Z
}.

(** [options.epochs || 1] *)
Definition epochs_or_1 (options : gmap string JSON) : JSON :=
  match options !! "epochs" with
  | Some v => if truthy v then v else JNum 1
  | None => JNum 1
  end.

(** [async train(trainingData, options)]: a simulated run; neither
    [this.isLoaded] nor the backend is consulted. *)
Definition train (h : Handle) (trainingData : list JSON)
    (options : gmap string JSON) (now : Z) : Result TrainingResults * Handle :=
  let '(l, a) :=
    match kind h with
    | LlamaModel => (5 # 100, 95 # 100)
    | MistralModel => (6 # 100, 94 # 100)
    | GptjModel => (7 # 100, 91 # 100)
    end%Q in
  (Ok {| status := "success"; epochs := epochs_or_1 options;
         loss := l; accuracy := a; timestamp := now |}, h).

(** The record returned by [evaluate]. *)
Record Metrics := {
  perplexity : Q;
  eval_accuracy : Q;
  f1Score : Q;
  eval_timestamp : Z
}.

(** [async evaluate(evalData)]: constant metrics. *)
Definition evaluate (h : Handle) (evalData : list JSON) (now : Z)
    : Result Metrics * Handle :=
  let '(p, a, f) :=
    match kind h with
    | LlamaModel => (345 # 100, 92 # 100, 88 # 100)
    | MistralModel => (322 # 100, 93 # 100, 89 # 100)
    | GptjModel => (375 # 100, 88 # 100, 86 # 100)
    end%Q in
  (Ok {| perplexity := p; eval_accuracy := a; f1Score := f;
         eval_timestamp := now |}, h).

(** [async save(savePath)]: writes [<targetPath>.meta.json], creating the
    parent directory first; returns [true].  The document written holds
    only the type, the version, a timestamp and [this.config]. *)
Definition save (env : Env) (h : Handle) (savePath : string)
    : Result bool * Handle :=
  let targetPath :=
    if bool_decide (savePath = "") then path_join env (modelPath h) "checkpoint"
    else savePath in
  let made :=
    if existsSync env (path_dirname env targetPath) then Ok ()
    else mkdirSync env (path_dirname env targetPath) in
  match made with
  | Throw e => (Throw e, h)
  | Ok _ =>
      match writeFileSync env (targetPath +:+ ".meta.json") with
      | Throw e => (Throw e, h)
      | Ok _ => (Ok true, h)
      end
  end.

(** [async unload()]: releases the owned reference when there is one. *)
Definition unload (h : Handle) : Result bool * Handle :=
  if isLoaded h && bool_decide (is_Some (backend h)) then
    let h1 := set_backend None h in
    let h2 := match kind h with
              | GptjModel => set_tokenizer false h1
              | _ => h1
              end in
    (Ok true, set_isLoaded false h2)
  else (Ok true, h).

(** [getInfo()] *)
Record Info := { info_name : string; info_path : string; info_isLoaded : bool }.

Definition constructor_name (k : Kind) : string :=
  match k with
  | LlamaModel => "LlamaModel"
  | MistralModel => "MistralModel"
  | GptjModel => "GptjModel"
  end.

Definition getInfo (h : Handle) : Info :=
  {| info_name := constructor_name (kind h); info_path := modelPath h;
     info_isLoaded := isLoaded h |}.

End Model.

(** ** The registry and fan-out dispatch (class [ModelManager]) *)

Module ModelManager.
Import Model.

(** [this.models] is a plain object, [this.initialized] a flag. *)
Record t := {
  models : gmap string Handle;
  initialized : bool
}.

(** [config.models]; an absent entry is [None], and reading its [path] in
    the constructor of the handle throws. *)
Record Config := {
  llama : option ModelConfig;
  mistral : option ModelConfig;
  gptj : option ModelConfig
}.

(** [constructor()] *)
Definition new : t := {| models := ∅; initialized := false |}.

Definition notInitialized : string :=
  "ModelManager belum diinisialisasi, panggil init() terlebih dahulu".

Definition notFound (modelName : string) : string :=
  "Model '" +:+ modelName +:+ "' tidak ditemukan".

Definition undefinedConfig : string :=
  "Cannot read properties of undefined (reading 'path')".

(** [async init()]: the three handles are assigned one after the other;
    a constructor that throws leaves the earlier assignments in place and
    [initialized = false]. *)
Definition init (cfg : Config) (m : t) : Result bool * t :=
  match llama cfg with
  | None => (Throw undefinedConfig, {| models := models m; initialized := false |})
  | Some cl =>
      let m1 := <["llama" := Model.new LlamaModel cl]> (models m) in
      match mistral cfg with
      | None => (Throw undefinedConfig, {| models := m1; initialized := false |})
      | Some cm =>
          let m2 := <["mistral" := Model.new MistralModel cm]> m1 in
          match gptj cfg with
          | None => (Throw undefinedConfig, {| models := m2; initialized := false |})
          | Some cg =>
              (Ok true,
               {| models := <["gptj" := Model.new GptjModel cg]> m2;
                  initialized := true |})
          end
      end
  end.

(** [getModel(modelName)]: the value found is returned when it is truthy,
    which every handle and every inherited member is. *)
Definition getModel (m : t) (modelName : string) : Result (JS.Property Handle) :=
  if negb (initialized m) then Throw notInitialized
  else
    match JS.get (models m) (JS.toLowerCase modelName) with
    | JS.Undefined => Throw (notFound modelName)
    | found => Ok found
    end.

(** [getAllModels()] *)
Definition getAllModels (m : t) : Result (gmap string Handle) :=
  if negb (initialized m) then Throw notInitialized else Ok (models m).

(** The object returned by [generateFromAllModels]. *)
Record Generated := {
  prompt : string;
  results : gmap string string;
  timestamp : Z
}.

(** The object returned by [loadAllModels] and [unloadAllModels]. *)
Record Statuses := {
  status : string;
  status_results : gmap string string;
  status_timestamp : Z
}.

(** The [.then]/[.catch] pair attached to one promise: what is stored
    under [results[name]] when the promise settles. *)
Definition entry (outcome : Result string) : string :=
  match outcome with
  | Ok text => text
  | Throw message => "ERROR: " +:+ message
  end.

(** The loop over [Object.entries(this.models)]: one call per handle.
    The calls act on distinct handle objects; each is given with its
    outcome and the state in which it leaves its handle. *)
Definition promises (call : Handle → Result string * Handle) (m : t)
    : list (string * (Result string * Handle)) :=
  (λ nh, (nh.1, call nh.2)) <$> JS.entries (models m).

(** The handlers run as the promises settle, in some order [settled]; each
    writes its own key of [results]. *)
Definition collect (settled : list (string * (Result string * Handle)))
    : gmap string string :=
  foldl (λ res s, JS.set res s.1 (entry s.2.1)) ∅ settled.

(** The handles after the calls: each handle object has been mutated by
    its own call. *)
Definition after (settled : list (string * (Result string * Handle)))
    (ms : gmap string Handle) : gmap string Handle :=
  foldl (λ acc s, <[s.1 := s.2.2]> acc) ms settled.

(** [async generateFromAllModels(prompt, options)], with the promises
    settling in the order of creation; [now] is the clock at the end. *)
Definition generateFromAllModels (env : Env) (m : t) (p : string)
    (options : gmap string JSON) (now : Z) : Result Generated * t :=
  if negb (initialized m) then (Throw notInitialized, m)
  else
    let settled := promises (λ h, generate env h p options) m in
    (Ok {| prompt := p; results := collect settled; timestamp := now |},
     {| models := after settled (models m); initialized := initialized m |}).

(** The [.then] handler of [loadAllModels] and [unloadAllModels] stores
    the word [success] whatever the call returned. *)
Definition as_status (r : Result bool * Handle) : Result string * Handle :=
  match r with
  | (Ok _, h) => (Ok "success", h)
  | (Throw e, h) => (Throw e, h)
  end.

(** [async loadAllModels()] *)
Definition loadAllModels (env : Env) (m : t) (now : Z) : Result Statuses * t :=
  if negb (initialized m) then (Throw notInitialized, m)
  else
    let settled := promises (λ h, as_status (load env h)) m in
    (Ok {| status := "success"; status_results := collect settled;
           status_timestamp := now |},
     {| models := after settled (models m); initialized := initialized m |}).

(** [async unloadAllModels()] *)
Definition unloadAllModels (m : t) (now : Z) : Result Statuses * t :=
  if negb (initialized m) then (Throw notInitialized, m)
  else
    let settled := promises (λ h, as_status (unload h)) m in
    (Ok {| status := "success"; status_results := collect settled;
           status_timestamp := now |},
     {| models := after settled (models m); initialized := initialized m |}).

(** The states a registry of the program can be in.  The constructor builds
    the first one; [init] and the three fan-out calls lead from one to the
    next; and a method called on a registered handle (by a route, by the
    trainer or by a fan-out, also while another call on that handle is
    pending) mutates that handle object in place, whatever the mutation is.
    No other code writes [this.models] or [this.initialized], and no code
    deletes a key of [this.models]: the trainer and the routes of the
    server only go through these steps. *)
Inductive reachable : t → Prop :=
| reachable_new : reachable new
| reachable_init (cfg : Config) (m : t) :
    reachable m → reachable (init cfg m).2
| reachable_generateFromAllModels (env : Env) (m : t) (p : string)
    (options : gmap string JSON) (now : Z) :
    reachable m → reachable (generateFromAllModels env m p options now).2
| reachable_loadAllModels (env : Env) (m : t) (now : Z) :
    reachable m → reachable (loadAllModels env m now).2
| reachable_unloadAllModels (m : t) (now : Z) :
    reachable m → reachable (unloadAllModels m now).2
| reachable_handle (m : t) (name : string) (h h' : Handle) :
    reachable m → models m !! name = Some h →
    reachable {| models := <[name := h']> (models m);
                 initialized := initialized m |}.

End ModelManager.

(** ** The trainer and its periodic job (class [Trainer] in
       src/training/trainer.js) *)

Module Trainer.
Import Model.

(** [config.training] as far as the trainer reads it, and the shared
    [modelManager] singleton. *)
Record t := {
  dataDir : string;
  checkpointDir : string;
  trainingConfig : gmap string JSON;
  managerConfig : ModelManager.Config
}.

(** [async loadTrainingData(filePath)].  After parsing, the log line reads
    [trainingData.length], which throws when the document is [null] and
    yields a number or [undefined] for every other JSON value. *)
Definition loadTrainingData (env : Env) (filePath : string) : Result JSON :=
  if existsSync env filePath then
    match readFileSync env filePath with
    | Throw e => Throw e
    | Ok fileContent =>
        match JSON_parse env fileContent with
        | Throw e => Throw e
        | Ok JNull => Throw "Cannot read properties of null (reading 'length')"
        | Ok trainingData => Ok trainingData
        end
    end
  else Throw ("File data pelatihan tidak ditemukan: " +:+ filePath).

(** [findTrainingDataFiles()] *)
Definition findTrainingDataFiles (env : Env) (tr : t) : Result (list string) :=
  match readdirSync env (dataDir tr) with
  | Throw e => Throw e
  | Ok names =>
      Ok (path_join env (dataDir tr) <$>
            filter (λ file, JS.endsWith file ".json" = true) names)
  end.

(** The loop of [mergeTrainingData]: [mergedData = mergedData.concat(data)]
    for each file in turn; the first failing file aborts the merge. *)
Fixpoint merge_loop (env : Env) (mergedData : list JSON) (files : list string)
    : Result (list JSON) :=
  match files with
  | [] => Ok mergedData
  | file :: rest =>
      match loadTrainingData env file with
      | Throw e => Throw e
      | Ok data => merge_loop env (Array_concat mergedData data) rest
      end
  end.

(** [async mergeTrainingData(files)] *)
Definition mergeTrainingData (env : Env) (files : list string) : Result (list JSON) :=
  merge_loop env [] files.

(** [item.key] for an element of the training data other than [null]:
    [undefined] (here [None]) unless the element is an object that has
    the key. *)
Definition item_get (item : JSON) (key : string) : option JSON :=
  match item with
  | JObj fields => snd <$> List.find (λ f, bool_decide (f.1 = key)) fields
  | _ => None
  end.

(** [a || b || fallback] on two optional values. *)
Definition first_truthy (a b : option JSON) (fallback : JSON) : JSON :=
  match a with
  | Some v => if truthy v then v else
      match b with
      | Some w => if truthy w then w else fallback
      | None => fallback
      end
  | None =>
      match b with
      | Some w => if truthy w then w else fallback
      | None => fallback
      end
  end.

(** The callback of [data.map] in [prepareTrainingData]; reading a
    property of [null] throws. *)
Definition prepare_item (item : JSON) : Result JSON :=
  match item with
  | JNull => Throw "Cannot read properties of null (reading 'input')"
  | _ =>
      Ok (JObj [ ("input", first_truthy (item_get item "input")
                             (item_get item "prompt") (JStr ""));
                 ("output", first_truthy (item_get item "output")
                              (item_get item "completion") (JStr ""));
                 ("metadata", first_truthy (item_get item "metadata") None
                                (JObj [])) ])
  end.

(** [prepareTrainingData(data, modelType)] *)
Fixpoint prepareTrainingData (data : list JSON) : Result (list JSON) :=
  match data with
  | [] => Ok []
  | item :: rest =>
      match prepare_item item with
      | Throw e => Throw e
      | Ok x =>
          match prepareTrainingData rest with
          | Throw e => Throw e
          | Ok xs => Ok (x :: xs)
          end
      end
  end.

(** The result of [trainModel]. *)
Inductive Trained :=
  | TrainedAll (per_model : gmap string TrainingResults) (timestamp : Z)
  | TrainedOne (model : string) (result : TrainingResults) (timestamp : Z).

(** The sequential loop of the ['all'] branch: [results[name] = await
    model.train(preparedData, mergedOptions)]. *)
Fixpoint train_all (entries : list (string * Handle)) (trainingData : list JSON)
    (options : gmap string JSON) (now : Z)
    (results : gmap string TrainingResults) (ms : gmap string Handle)
    : Result (gmap string TrainingResults) * gmap string Handle :=
  match entries with
  | [] => (Ok results, ms)
  | (name, model) :: rest =>
      match prepareTrainingData trainingData with
      | Throw e => (Throw e, ms)
      | Ok preparedData =>
          match train model preparedData options now with
          | (Throw e, model') => (Throw e, <[name := model']> ms)
          | (Ok r, model') =>
              train_all rest trainingData options now
                (JS.set results name r) (<[name := model']> ms)
          end
      end
  end.

(** [async trainModel(modelType, trainingData, options)] *)
Definition trainModel (tr : t) (mgr : ModelManager.t) (modelType : string)
    (trainingData : list JSON) (options : gmap string JSON) (now : Z)
    : Result Trained * ModelManager.t :=
  let '(started, mgr1) :=
    if ModelManager.initialized mgr then (Ok true, mgr)
    else ModelManager.init (managerConfig tr) mgr in
  match started with
  | Throw e => (Throw e, mgr1)
  | Ok _ =>
      let mergedOptions := options ∪ trainingConfig tr in
      if bool_decide (JS.toLowerCase modelType = "all") then
        match ModelManager.getAllModels mgr1 with
        | Throw e => (Throw e, mgr1)
        | Ok all =>
            match train_all (JS.entries all) trainingData mergedOptions now ∅
                    (ModelManager.models mgr1) with
            | (Throw e, ms) =>
                (Throw e, {| ModelManager.models := ms;
                             ModelManager.initialized := ModelManager.initialized mgr1 |})
            | (Ok results, ms) =>
                (Ok (TrainedAll results now),
                 {| ModelManager.models := ms;
                    ModelManager.initialized := ModelManager.initialized mgr1 |})
            end
        end
      else
        match ModelManager.getModel mgr1 modelType with
        | Throw e => (Throw e, mgr1)
        | Ok (JS.Own model) =>
            match prepareTrainingData trainingData with
            | Throw e => (Throw e, mgr1)
            | Ok preparedData =>
                match train model preparedData mergedOptions now with
                | (Throw e, model') =>
                    (Throw e,
                     {| ModelManager.models :=
                          <[JS.toLowerCase modelType := model']> (ModelManager.models mgr1);
                        ModelManager.initialized := ModelManager.initialized mgr1 |})
                | (Ok r, model') =>
                    (Ok (TrainedOne modelType r now),
                     {| ModelManager.models :=
                          <[JS.toLowerCase modelType := model']> (ModelManager.models mgr1);
                        ModelManager.initialized := ModelManager.initialized mgr1 |})
                end
            end
        | Ok _ =>
            match prepareTrainingData trainingData with
            | Throw e => (Throw e, mgr1)
            | Ok _ => (Throw "model.train is not a function", mgr1)
            end
        end
  end.

(** *** The periodic job *)

(** The arguments captured by the callback given to [setInterval]. *)
Record Job := { job_modelType : string; job_interval : Z }.

(** The timers of the process: the intervals that are set, and the next
    identifier [setInterval] hands out. *)
Record Timers := { active : gmap nat Job; next_id : nat }.

(** The state a firing can see: the shared manager and the timers. *)
Record System := { manager : ModelManager.t; timers : Timers }.

(** What a firing writes to the log when it ends. *)
Inductive Report :=
  | Skipped                    (* warn: no training-data file found *)
  | Finished                   (* info: training done *)
  | Failed (message : string). (* error: the caught error *)

(** The [try] block of the callback. *)
Definition firing_body (env : Env) (tr : t) (mgr : ModelManager.t)
    (modelType : string) (now : Z) : Result Report * ModelManager.t :=
  match findTrainingDataFiles env tr with
  | Throw e => (Throw e, mgr)
  | Ok files =>
      if bool_decide (List.length files = 0%nat) then (Ok Skipped, mgr)
      else
        match mergeTrainingData env files with
        | Throw e => (Throw e, mgr)
        | Ok mergedData =>
            match trainModel tr mgr modelType mergedData ∅ now with
            | (Throw e, mgr') => (Throw e, mgr')
            | (Ok _, mgr') => (Ok Finished, mgr')
            end
        end
  end.

(** The callback: [try { ... } catch (error) { logger.error(...) }].  The
    first component is the settlement of the promise the callback
    returns. *)
Definition firing (env : Env) (tr : t) (mgr : ModelManager.t)
    (modelType : string) (now : Z) : Result unit * Report * ModelManager.t :=
  match firing_body env tr mgr modelType now with
  | (Ok report, mgr') => (Ok (), report, mgr')
  | (Throw e, mgr') => (Ok (), Failed e, mgr')
  end.

(** The object returned by [schedulePeriodicTraining]. *)
Record Scheduled := {
  intervalId : nat;
  sched_modelType : string;
  sched_interval : Z;
  sched_timestamp : Z
}.

(** [schedulePeriodicTraining(modelType, interval)] *)
Definition schedulePeriodicTraining (ts : Timers) (modelType : string)
    (interval : Z) (now : Z) : Result Scheduled * Timers :=
  (Ok {| intervalId := next_id ts; sched_modelType := modelType;
         sched_interval := interval; sched_timestamp := now |},
   {| active := <[next_id ts := {| job_modelType := modelType;
                                    job_interval := interval |}]> (active ts);
      next_id := S (next_id ts) |}).

(** [cancelPeriodicTraining(intervalId)] *)
Definition cancelPeriodicTraining (ts : Timers) (id : nat) : Result bool * Timers :=
  (Ok true, {| active := delete id (active ts); next_id := next_id ts |}).

(** The timer [id] elapses: the callback runs when the interval is still
    set.  Firings are taken one at a time. *)
Definition tick (env : Env) (tr : t) (sys : System) (id : nat) (now : Z)
    : option (Result unit * Report) * System :=
  match active (timers sys) !! id with
  | None => (None, sys)
  | Some job =>
      let '(settled, report, mgr') :=
        firing env tr (manager sys) (job_modelType job) now in
      (Some (settled, report), {| manager := mgr'; timers := timers sys |})
  end.

(** A run of the process: the timer [id] elapses at each of the given
    moments, the world being [env] at that moment. *)
Fixpoint ticks (tr : t) (sys : System) (id : nat) (moments : list (Env * Z))
    : list (option (Result unit * Report)) * System :=
  match moments with
  | [] => ([], sys)
  | (env, now) :: rest =>
      let '(r, sys') := tick env tr sys id now in
      let '(rs, final) := ticks tr sys' id rest in
      (r :: rs, final)
  end.

End Trainer.

(** ** Sample worlds and configurations *)

Module Sample.

(** A small world: [present] are the paths that exist, [listing] is what
    the data directory holds, [contents] and [documents] give the text of a
    file and the value it parses to.  The LLaMA and Mistral libraries work,
    the ONNX runtime refuses to create a session. *)
Record Disk := {
  present : list string;
  listing : list string;
  contents : list (string * string);
  documents : list (string * JSON)
}.

Definition lookup_or_throw {A} (table : list (string * A)) (key what : string)
    : Result A :=
  match List.find (λ e, bool_decide (e.1 = key)) table with
  | Some e => Ok e.2
  | None => Throw (what +:+ key)
  end.

Definition world (d : Disk) : Env := {|
  existsSync p := bool_decide (p ∈ present d);
  readdirSync _ := Ok (listing d);
  readFileSync p := lookup_or_throw (contents d) p "ENOENT: ";
  mkdirSync _ := Ok ();
  writeFileSync _ := Ok ();
  path_join a b := a +:+ "/" +:+ b;
  path_dirname p := p;
  JSON_parse s := lookup_or_throw (documents d) s "Unexpected token in ";
  LLModel_new _ := Ok 1%nat;
  LLModel_load _ := Ok ();
  LLModel_generate _ p _ := Ok ("llama says: " +:+ p);
  pipeline _ := Ok 2%nat;
  pipeline_call _ p _ := Ok (p +:+ " and so on");
  InferenceSession_create _ _ := Throw "Load model failed"
|}.

Definition config : ModelManager.Config := {|
  ModelManager.llama := Some {| path := "./models/llama2"; contextSize := 2048;
                                batchSize := 512; threads := 4 |};
  ModelManager.mistral := Some {| path := "./models/mistral7b"; contextSize := 2048;
                                  batchSize := 512; threads := 4 |};
  ModelManager.gptj := Some {| path := "./models/gptj"; contextSize := 2048;
                               batchSize := 512; threads := 4 |}
|}.

Definition mistral_config : ModelConfig :=
  {| path := "./models/mistral7b"; contextSize := 2048; batchSize := 512;
     threads := 4 |}.

(** All three model directories are there; the data directory holds two
    training files and a note. *)
Definition disk : Disk := {|
  present := [ "./models/llama2"; "./models/mistral7b"; "./models/gptj";
               "data/a.json"; "data/b.json" ];
  listing := [ "a.json"; "notes.txt"; "b.json" ];
  contents := [ ("data/a.json", "A"); ("data/b.json", "B") ];
  documents :=
    [ ("A", JArr [ JObj [("input", JStr "q1"); ("output", JStr "a1")];
                   JObj [("prompt", JStr "q2"); ("completion", JStr "a2")] ]);
      ("B", JArr [ JObj [("input", JStr "q3"); ("output", JStr "a3")] ]) ]
|}.

(** The same machine after the model directories were removed and the data
    directory emptied. *)
Definition bare_disk : Disk := {|
  present := []; listing := []; contents := []; documents := []
|}.

(** A trainer reading the directory [data]. *)
Definition trainer : Trainer.t := {|
  Trainer.dataDir := "data";
  Trainer.checkpointDir := "checkpoints";
  Trainer.trainingConfig := <["epochs" := JNum 3]> ∅;
  Trainer.managerConfig := config
|}.

End Sample.

(** ** Further operations of the registry, the trainer and the server *)

(** A handle that says it is loaded holds what [generate] will call: the
    owned backend reference and, for GptjModel, the tokenizer. *)
Definition coherent (h : Model.Handle) : Prop :=
  Model.isLoaded h = true →
  is_Some (Model.backend h) ∧
  (Model.kind h = Model.GptjModel → Model.tokenizer h = true).

(** One call of a method of a handle, with the world it runs in, and the
    handle it leaves behind. *)
Inductive Call :=
  | CallLoad (env : Env)
  | CallGenerate (env : Env) (prompt : string) (options : gmap string JSON)
  | CallTrain (trainingData : list JSON) (options : gmap string JSON) (now : Z)
  | CallEvaluate (evalData : list JSON) (now : Z)
  | CallSave (env : Env) (savePath : string)
  | CallUnload.

Definition call (c : Call) (h : Model.Handle) : Model.Handle :=
  match c with
  | CallLoad env => (Model.load env h).2
  | CallGenerate env prompt options => (Model.generate env h prompt options).2
  | CallTrain trainingData options now => (Model.train h trainingData options now).2
  | CallEvaluate evalData now => (Model.evaluate h evalData now).2
  | CallSave env savePath => (Model.save env h savePath).2
  | CallUnload => (Model.unload h).2
  end.

(** The handle after a sequence of calls that do not overlap: each call
    has settled before the next one is made, first call first.  The
    methods are [async]; calls that overlap on one handle are not of this
    form. *)
Definition calls (cs : list Call) (h : Model.Handle) : Model.Handle :=
  foldl (λ h c, call c h) h cs.

(** [load()] of LlamaModel runs in two turns of the event loop.  The first
    goes up to [await this.model.load()]: the path check and the assignment
    of [this.model]; it yields the instance being loaded.  The second starts
    when that promise settles and sets [this.isLoaded].  The [catch] block
    covers both.  A call made on the handle between the two turns acts on
    the handle as the first turn left it. *)
Definition load_until_await (env : Env) (h : Model.Handle)
    : Result Instance * Model.Handle :=
  if existsSync env (Model.modelPath h) then
    match LLModel_new env (Model.config h) with
    | Throw e => (Throw e, Model.set_isLoaded false h)
    | Ok m => (Ok m, Model.set_backend (Some m) h)
    end
  else (Throw ("Model path tidak ditemukan: " +:+ Model.modelPath h),
        Model.set_isLoaded false h).

Definition load_after_await (env : Env) (m : Instance) (h : Model.Handle)
    : Result bool * Model.Handle :=
  match LLModel_load env m with
  | Throw e => (Throw e, Model.set_isLoaded false h)
  | Ok _ => (Ok true, Model.set_isLoaded true h)
  end.

(** The loop of [getModelInfo]: [info[name] = model.getInfo()]. *)
Definition collect_info (entries : list (string * Model.Handle))
    : gmap string Model.Info :=
  foldl (λ info nh, JS.set info nh.1 (Model.getInfo nh.2)) ∅ entries.

(** [getModelInfo()] of ModelManager: the infos and a timestamp. *)
Definition getModelInfo (m : ModelManager.t) (now : Z)
    : Result (gmap string Model.Info * Z) :=
  if negb (ModelManager.initialized m) then Throw ModelManager.notInitialized
  else Ok (collect_info (JS.entries (ModelManager.models m)), now).

(** [String.prototype.replace(/:/g, '-')] *)
Fixpoint replace_colons (s : string) : string :=
  match s with
  | EmptyString => EmptyString
  | String c rest =>
      String (if bool_decide (c = ":"%char) then "-"%char else c) (replace_colons rest)
  end.

(** [async saveModelCheckpoint(modelType)] of Trainer; [iso] is the value
    of [new Date().toISOString()]. *)
Definition saveModelCheckpoint (env : Env) (tr : Trainer.t) (mgr : ModelManager.t)
    (modelType : string) (iso : string) : Result string * ModelManager.t :=
  let '(started, mgr1) :=
    if ModelManager.initialized mgr then (Ok true, mgr)
    else ModelManager.init (Trainer.managerConfig tr) mgr in
  match started with
  | Throw e => (Throw e, mgr1)
  | Ok _ =>
      let checkpointPath :=
        path_join env (Trainer.checkpointDir tr)
          (modelType +:+ "_" +:+ replace_colons iso) in
      match ModelManager.getModel mgr1 modelType with
      | Throw e => (Throw e, mgr1)
      | Ok (JS.Own model) =>
          match Model.save env model checkpointPath with
          | (Throw e, model') =>
              (Throw e,
               {| ModelManager.models :=
                    <[JS.toLowerCase modelType := model']> (ModelManager.models mgr1);
                  ModelManager.initialized := ModelManager.initialized mgr1 |})
          | (Ok _, model') =>
              (Ok checkpointPath,
               {| ModelManager.models :=
                    <[JS.toLowerCase modelType := model']> (ModelManager.models mgr1);
                  ModelManager.initialized := ModelManager.initialized mgr1 |})
          end
      | Ok _ => (Throw "model.save is not a function", mgr1)
      end
  end.

(** *** The routes of the API server (src/config/config.js, from
        [const app = express()] on) *)

Module Server.
Import Model.

(** [String.prototype.startsWith] *)
Fixpoint startsWith (s prefix : string) : bool :=
  match prefix, s with
  | EmptyString, _ => true
  | String p prefix', String c s' =>
      bool_decide (p = c) && startsWith s' prefix'
  | String _ _, EmptyString => false
  end.

(** [String.prototype.includes] *)
Fixpoint includes (s sub : string) : bool :=
  startsWith s sub ||
  match s with
  | EmptyString => false
  | String _ s' => includes s' sub
  end.

(** The characters up to the first space. *)
Fixpoint until_space (s : string) : string :=
  match s with
  | EmptyString => EmptyString
  | String c rest =>
      if bool_decide (c = " "%char) then EmptyString else String c (until_space rest)
  end.

(** [authHeader.split(' ')[1]] for a header that starts with [Bearer ]: what
    follows the first space, up to the next one. *)
Definition token_of (authHeader : string) : string :=
  until_space (JS.slice 7 authHeader).

(** What the routes read of a request.  The prompt, when present, is a
    string; absent options are the empty object. *)
Record Request := {
  ip : string;
  authorization : option string;
  param_model : string;
  body_prompt : option string;
  body_options : gmap string JSON
}.

(** The JSON documents the routes answer with. *)
Inductive Body :=
  | ErrorBody (message : string)
  | GeneratedBody (model prompt generated_text : string) (timestamp : Z)
  | GeneratedAllBody (data : ModelManager.Generated)
  | ModelStatusBody (model message : string) (timestamp : Z)
  | AllStatusesBody (data : ModelManager.Statuses)
  | ModelInfoBody (models : gmap string Model.Info) (timestamp : Z).

Record Response := { status : Z; body : Body }.

(** The state the routes share: the [modelManager] singleton and the [Map]
    of the rate limiter of the generate route. *)
Record State := {
  manager : ModelManager.t;
  requests : gmap string (list Z)
}.

(** The server as configured: [config.models], the limiter options and
    [jwt.verify] with the configured secret. *)
Record Setup := {
  modelsConfig : ModelManager.Config;
  rateLimiting : RateLimiter.Options;
  jwt_verify : string → Result unit
}.

(** The [authenticate] middleware: [None] stands for [next()]. *)
Definition authenticate (su : Setup) (req : Request) : option Response :=
  match authorization req with
  | None => Some {| status := 401; body := ErrorBody "Tidak ada token otentikasi" |}
  | Some authHeader =>
      if negb (startsWith authHeader "Bearer ") then
        Some {| status := 401; body := ErrorBody "Tidak ada token otentikasi" |}
      else
        match jwt_verify su (token_of authHeader) with
        | Ok _ => None
        | Throw _ => Some {| status := 401; body := ErrorBody "Token tidak valid" |}
        end
  end.

(** The [catch] block of the generate, load and unload routes. *)
Definition failure (message : string) : Response :=
  {| status := if includes message "tidak ditemukan" then 404 else 500;
     body := ErrorBody message |}.

(** [if (!modelManager.initialized) await modelManager.init()] *)
Definition ensure_init (su : Setup) (mgr : ModelManager.t)
    : Result bool * ModelManager.t :=
  if ModelManager.initialized mgr then (Ok true, mgr)
  else ModelManager.init (modelsConfig su) mgr.

(** The manager after a call on the handle found under [model]. *)
Definition with_handle (mgr : ModelManager.t) (model : string) (h : Handle)
    : ModelManager.t :=
  {| ModelManager.models := <[JS.toLowerCase model := h]> (ModelManager.models mgr);
     ModelManager.initialized := ModelManager.initialized mgr |}.

(** The handler of [POST /api/generate/:model]. *)
Definition generate_handler (su : Setup) (env : Env) (mgr : ModelManager.t)
    (req : Request) (now : Z) : Response * ModelManager.t :=
  match body_prompt req with
  | None | Some EmptyString =>
      ({| status := 400; body := ErrorBody "Prompt diperlukan" |}, mgr)
  | Some prompt =>
      match ensure_init su mgr with
      | (Throw e, mgr1) => (failure e, mgr1)
      | (Ok _, mgr1) =>
          if bool_decide (JS.toLowerCase (param_model req) = "all") then
            match ModelManager.generateFromAllModels env mgr1 prompt
                    (body_options req) now with
            | (Throw e, mgr2) => (failure e, mgr2)
            | (Ok data, mgr2) =>
                ({| status := 200; body := GeneratedAllBody data |}, mgr2)
            end
          else
            match ModelManager.getModel mgr1 (param_model req) with
            | Throw e => (failure e, mgr1)
            | Ok (JS.Own h) =>
                match generate env h prompt (body_options req) with
                | (Throw e, h') => (failure e, with_handle mgr1 (param_model req) h')
                | (Ok text, h') =>
                    ({| status := 200;
                        body := GeneratedBody (param_model req) prompt text now |},
                     with_handle mgr1 (param_model req) h')
                end
            | Ok _ => (failure "modelInstance.generate is not a function", mgr1)
            end
      end
  end.

(** [POST /api/generate/:model]: [authenticate], then the rate limiter, then
    the handler.  [now] is the clock when the limiter runs, [finished] when the
    answer is built. *)
Definition generate_route (su : Setup) (env : Env) (st : State) (req : Request)
    (now finished : Z) : Response * State :=
  match authenticate su req with
  | Some r => (r, st)
  | None =>
      match RateLimiter.rateLimiter (rateLimiting su) (requests st) (ip req) now with
      | (RateLimiter.Status429, requests') =>
          ({| status := 429;
              body := ErrorBody "Terlalu banyak permintaan, coba lagi nanti" |},
           {| manager := manager st; requests := requests' |})
      | (RateLimiter.Next, requests') =>
          let '(r, mgr') := generate_handler su env (manager st) req finished in
          (r, {| manager := mgr'; requests := requests' |})
      end
  end.

(** [POST /api/models/:model/load] *)
Definition load_route (su : Setup) (env : Env) (st : State) (req : Request)
    (now : Z) : Response * State :=
  match authenticate su req with
  | Some r => (r, st)
  | None =>
      let finish (x : Response * ModelManager.t) :=
        (x.1, {| manager := x.2; requests := requests st |}) in
      match ensure_init su (manager st) with
      | (Throw e, mgr1) => finish (failure e, mgr1)
      | (Ok _, mgr1) =>
          if bool_decide (JS.toLowerCase (param_model req) = "all") then
            match ModelManager.loadAllModels env mgr1 now with
            | (Throw e, mgr2) => finish (failure e, mgr2)
            | (Ok data, mgr2) =>
                finish ({| status := 200; body := AllStatusesBody data |}, mgr2)
            end
          else
            match ModelManager.getModel mgr1 (param_model req) with
            | Throw e => finish (failure e, mgr1)
            | Ok (JS.Own h) =>
                match load env h with
                | (Throw e, h') =>
                    finish (failure e, with_handle mgr1 (param_model req) h')
                | (Ok _, h') =>
                    finish
                      ({| status := 200;
                          body := ModelStatusBody (param_model req)
                                    ("Model " +:+ param_model req +:+ " berhasil dimuat")
                                    now |},
                       with_handle mgr1 (param_model req) h')
                end
            | Ok _ => finish (failure "modelInstance.load is not a function", mgr1)
            end
      end
  end.

(** [POST /api/models/:model/unload] *)
Definition unload_route (su : Setup) (st : State) (req : Request)
    (now : Z) : Response * State :=
  match authenticate su req with
  | Some r => (r, st)
  | None =>
      let finish (x : Response * ModelManager.t) :=
        (x.1, {| manager := x.2; requests := requests st |}) in
      match ensure_init su (manager st) with
      | (Throw e, mgr1) => finish (failure e, mgr1)
      | (Ok _, mgr1) =>
          if bool_decide (JS.toLowerCase (param_model req) = "all") then
            match ModelManager.unloadAllModels mgr1 now with
            | (Throw e, mgr2) => finish (failure e, mgr2)
            | (Ok data, mgr2) =>
                finish ({| status := 200; body := AllStatusesBody data |}, mgr2)
            end
          else
            match ModelManager.getModel mgr1 (param_model req) with
            | Throw e => finish (failure e, mgr1)
            | Ok (JS.Own h) =>
                match unload h with
                | (Throw e, h') =>
                    finish (failure e, with_handle mgr1 (param_model req) h')
                | (Ok _, h') =>
                    finish
                      ({| status := 200;
                          body := ModelStatusBody (param_model req)
                                    ("Model " +:+ param_model req +:+ " berhasil dibebaskan")
                                    now |},
                       with_handle mgr1 (param_model req) h')
                end
            | Ok _ => finish (failure "modelInstance.unload is not a function", mgr1)
            end
      end
  end.

(** [GET /api/models]: the [catch] block of this route always answers
    500. *)
Definition models_route (su : Setup) (st : State) (req : Request) (now : Z)
    : Response * State :=
  match authenticate su req with
  | Some r => (r, st)
  | None =>
      match ensure_init su (manager st) with
      | (Throw e, mgr1) =>
          ({| status := 500; body := ErrorBody e |},
           {| manager := mgr1; requests := requests st |})
      | (Ok _, mgr1) =>
          match getModelInfo mgr1 now with
          | Throw e =>
              ({| status := 500; body := ErrorBody e |},
               {| manager := mgr1; requests := requests st |})
          | Ok (info, t) =>
              ({| status := 200; body := ModelInfoBody info t |},
               {| manager := mgr1; requests := requests st |})
          end
      end
  end.

(** A server set up as in the repository's configuration, accepting the
    one token [good]. *)
Definition sample_setup : Setup := {|
  modelsConfig := Sample.config;
  rateLimiting := {| RateLimiter.windowMs := 900000; RateLimiter.max := 100 |};
  jwt_verify t := if bool_decide (t = "good") then Ok () else Throw "invalid token"
|}.

Definition sample_request (model : string) (prompt : option string) : Request := {|
  ip := "10.0.0.1";
  authorization := Some "Bearer good";
  param_model := model;
  body_prompt := prompt;
  body_options := ∅
|}.

Definition fresh : State := {| manager := ModelManager.new; requests := ∅ |}.

End Server.

(** * Properties *)

(** ** The rate limiter *)

Section rate_limiter.
Import RateLimiter.
Variable o : Options.

Implicit Types (requests : gmap string (list Z)) (ip k : string) (now : Z).

Lemma stored_insert requests ip l :
  stored (<[ip := l]> requests) ip = l.
Proof. unfold stored. by rewrite lookup_insert_eq. Qed.

Lemma stored_insert_ne requests ip k l :
  ip ≠ k → stored (<[ip := l]> requests) k = stored requests k.
Proof. intros. unfold stored. by rewrite lookup_insert_ne. Qed.

(** Creating the empty entry of a new client changes no stored list. *)
Lemma stored_touch requests ip k :
  stored (match requests !! ip with
          | Some _ => requests
          | None => <[ip := []]> requests
          end) k = stored requests k.
Proof.
  destruct (requests !! ip) eqn:E; [done|].
  destruct (decide (ip = k)) as [->|].
  - rewrite stored_insert. unfold stored. by rewrite E.
  - by apply stored_insert_ne.
Qed.

Lemma userRequests_touch requests ip now :
  userRequests o (match requests !! ip with
                  | Some _ => requests
                  | None => <[ip := []]> requests
                  end) ip now = userRequests o requests ip now.
Proof. unfold userRequests. by rewrite stored_touch. Qed.

(** The two outcomes of one request, in terms of the stored lists. *)
Lemma rateLimiter_reject requests ip now :
  max o ≤ Z.of_nat (List.length (userRequests o requests ip now)) →
  (rateLimiter o requests ip now).1 = Status429 ∧
  ∀ k, stored (rateLimiter o requests ip now).2 k = stored requests k.
Proof.
  intros H. unfold rateLimiter. cbv zeta.
  rewrite userRequests_touch, bool_decide_true by done.
  split; [done|]. intros k. apply stored_touch.
Qed.

Lemma rateLimiter_next requests ip now :
  Z.of_nat (List.length (userRequests o requests ip now)) < max o →
  (rateLimiter o requests ip now).1 = Next ∧
  stored (rateLimiter o requests ip now).2 ip
    = userRequests o requests ip now ++ [now] ∧
  ∀ k, k ≠ ip → stored (rateLimiter o requests ip now).2 k = stored requests k.
Proof.
  intros H. unfold rateLimiter. cbv zeta.
  rewrite userRequests_touch, bool_decide_false by lia.
  cbn [fst snd]. rewrite stored_insert. split; [done|]. split; [done|].
  intros k Hk. rewrite stored_insert_ne by done. apply stored_touch.
Qed.

(** A request of [ip] leaves the lists of the other clients alone. *)
Lemma rateLimiter_frame requests ip now k :
  k ≠ ip → stored (rateLimiter o requests ip now).2 k = stored requests k.
Proof.
  intros Hk.
  destruct (decide (max o ≤ Z.of_nat (List.length (userRequests o requests ip now)))).
  - by apply rateLimiter_reject.
  - apply rateLimiter_next; [lia|done].
Qed.

(** The decision and the new list of [ip] depend on the list of [ip]
    only. *)
Lemma rateLimiter_local requests1 requests2 ip now :
  stored requests1 ip = stored requests2 ip →
  (rateLimiter o requests1 ip now).1 = (rateLimiter o requests2 ip now).1 ∧
  stored (rateLimiter o requests1 ip now).2 ip
    = stored (rateLimiter o requests2 ip now).2 ip.
Proof.
  intros E.
  assert (userRequests o requests1 ip now = userRequests o requests2 ip now) as EU.
  { unfold userRequests. by rewrite E. }
  destruct (decide (max o ≤ Z.of_nat (List.length (userRequests o requests1 ip now)))) as [H|H].
  - destruct (rateLimiter_reject requests1 ip now H) as [-> ->].
    rewrite EU in H.
    destruct (rateLimiter_reject requests2 ip now H) as [-> ->]. done.
  - assert (Z.of_nat (List.length (userRequests o requests1 ip now)) < max o) as H1 by lia.
    destruct (rateLimiter_next requests1 ip now H1) as (-> & -> & _).
    rewrite EU in H1.
    destruct (rateLimiter_next requests2 ip now H1) as (-> & -> & _).
    by rewrite EU.
Qed.

Lemma bounded_empty : 0 ≤ max o → bounded o ∅.
Proof. intros H k. unfold stored. rewrite lookup_empty. simpl. lia. Qed.

Lemma rateLimiter_bounded requests ip now :
  bounded o requests → bounded o (rateLimiter o requests ip now).2.
Proof.
  intros B k.
  destruct (decide (max o ≤ Z.of_nat (List.length (userRequests o requests ip now)))) as [H|H].
  - destruct (rateLimiter_reject requests ip now H) as [_ ->]. apply B.
  - assert (Z.of_nat (List.length (userRequests o requests ip now)) < max o) as H1 by lia.
    destruct (rateLimiter_next requests ip now H1) as (_ & E & F).
    destruct (decide (k = ip)) as [->|Hk].
    + rewrite E, length_app. simpl. lia.
    + rewrite F by done. apply B.
Qed.

Lemma run_bounded trace requests :
  bounded o requests → bounded o (run o requests trace).2.
Proof.
  revert requests. induction trace as [|[ip now] rest IH]; intros requests B; [done|].
  simpl. pose proof (rateLimiter_bounded requests ip now B) as B'.
  destruct (rateLimiter o requests ip now) as [r requests'].
  specialize (IH requests' B').
  by destruct (run o requests' rest).
Qed.

Lemma count_in_window_le requests k now :
  (count_in_window o requests k now ≤ List.length (stored requests k))%nat.
Proof. unfold count_in_window. apply length_filter. Qed.

End rate_limiter.

Section rate_limiter_claims.
Import RateLimiter.

Lemma decisions_of_cons_eq (k : string) (r : Response) l :
  decisions_of k ((k, r) :: l) = r :: decisions_of k l.
Proof. unfold decisions_of. by rewrite filter_cons_True. Qed.

Lemma decisions_of_cons_ne (ip k : string) (r : Response) l :
  ip ≠ k → decisions_of k ((ip, r) :: l) = decisions_of k l.
Proof. intros. unfold decisions_of. by rewrite filter_cons_False. Qed.

(** Dropping requests of other clients from a trace does not change what
    client [k] is told, whatever the other lists hold. *)
Lemma run_projection (o : Options) (P : string * Z → Prop)
    `{!∀ x, Decision (P x)} (k : string) (trace : list (string * Z)) :
  (∀ now, P (k, now)) →
  ∀ requests1 requests2,
    stored requests1 k = stored requests2 k →
    decisions_of k (run o requests1 trace).1
      = decisions_of k (run o requests2 (filter P trace)).1.
Proof.
  intros HP. induction trace as [|[ip now] rest IH]; intros requests1 requests2 E; [done|].
  cbn [run]. destruct (rateLimiter o requests1 ip now) as [r1 q1] eqn:E1.
  destruct (decide (ip = k)) as [->|Hip].
  - rewrite filter_cons_True by apply HP. cbn [run].
    destruct (rateLimiter o requests2 k now) as [r2 q2] eqn:E2.
    destruct (rateLimiter_local o requests1 requests2 k now E) as [Er Es].
    rewrite E1, E2 in Er, Es. simpl in Er, Es. subst r2.
    specialize (IH q1 q2 Es).
    destruct (run o q1 rest) as [rs1 f1], (run o q2 (filter P rest)) as [rs2 f2].
    cbn [fst] in *. rewrite !decisions_of_cons_eq. by rewrite IH.
  - assert (stored q1 k = stored requests1 k) as F1.
    { pose proof (rateLimiter_frame o requests1 ip now k) as F.
      rewrite E1 in F. apply F. congruence. }
    destruct (decide (P (ip, now))) as [Hp|Hp].
    + rewrite filter_cons_True by done. cbn [run].
      destruct (rateLimiter o requests2 ip now) as [r2 q2] eqn:E2.
      assert (stored q2 k = stored requests2 k) as F2.
      { pose proof (rateLimiter_frame o requests2 ip now k) as F.
        rewrite E2 in F. apply F. congruence. }
      specialize (IH q1 q2 ltac:(congruence)).
      destruct (run o q1 rest) as [rs1 f1], (run o q2 (filter P rest)) as [rs2 f2].
      cbn [fst] in *. by rewrite !decisions_of_cons_ne.
    + rewrite filter_cons_False by done.
      specialize (IH q1 requests2 ltac:(congruence)).
      destruct (run o q1 rest) as [rs1 f1].
      cbn [fst] in *. by rewrite decisions_of_cons_ne.
Qed.

(** When every request is of client [k], every decision is. *)
Lemma decisions_of_own (o : Options) (k : string) (trace : list (string * Z)) :
  ∀ requests,
    decisions_of k (run o requests (requests_of k trace)).1
      = (run o requests (requests_of k trace)).1.*2.
Proof.
  unfold requests_of.
  induction trace as [|[ip now] rest IH]; intros requests; [done|].
  destruct (decide (ip = k)) as [->|Hip].
  - rewrite filter_cons_True by done. cbn [run].
    destruct (rateLimiter o requests k now) as [r q].
    specialize (IH q).
    destruct (run o q (filter (λ p, p.1 = k) rest)) as [rs f].
    cbn [fst] in *. rewrite decisions_of_cons_eq, IH. done.
  - rewrite filter_cons_False by done. apply IH.
Qed.

(** C10: the decisions taken for a client are those it would get if the
    requests of any other client [k2] had never occurred, and indeed those
    it would get if it were the only client. *)
Theorem rateLimiter_noninterference (o : Options)
    (requests : gmap string (list Z)) (trace : list (string * Z))
    (k1 k2 : string) :
  k1 ≠ k2 →
  decisions_of k1 (run o requests trace).1
    = decisions_of k1 (run o requests (filter (λ p, p.1 ≠ k2) trace)).1 ∧
  decisions_of k1 (run o requests trace).1
    = (run o requests (requests_of k1 trace)).1.*2.
Proof.
  intros Hk. split.
  - apply run_projection; [|done]. intros now. simpl. done.
  - rewrite <- decisions_of_own.
    by apply (run_projection o (λ p, p.1 = k1)).
Qed.

Lemma rateLimiter_noninterference_witness :
  let o := {| windowMs := 1000; max := 1 |} in
  let trace := [("a", 0); ("b", 1); ("a", 2); ("b", 3); ("a", 1500)] in
  decisions_of "a" (run o ∅ trace).1 = [Next; Status429; Next] ∧
  decisions_of "a" (run o ∅ (filter (λ p, p.1 ≠ "b") trace)).1
    = [Next; Status429; Next] ∧
  (run o ∅ (requests_of "a" trace)).1.*2 = [Next; Status429; Next].
Proof.
  intros o trace.
  pose proof (rateLimiter_noninterference o ∅ trace "a" "b" ltac:(done)) as [H1 H2].
  assert (decisions_of "a" (run o ∅ trace).1 = [Next; Status429; Next]) as E
    by (vm_compute; reflexivity).
  split; [exact E|]. split; [by rewrite <- H1|by rewrite <- H2].
Defined.

End rate_limiter_claims.

Section sliding_window.
Import RateLimiter.

(** C2, as stated, fails at the edge of the window: with [windowMs = 1000]
    and [max = 1], a client admitted at time 0 asks again at time 1000.
    The timestamp 0 is not older than [now - windowMs = 0], so by the rule
    as worded one timestamp remains and the request is rejected; the
    middleware drops that timestamp and lets the request through. *)
Lemma rateLimiter_window_edge :
  let o := {| windowMs := 1000; max := 1 |} in
  let requests := (run o ∅ [("clientA", 0)]).2 in
  stored requests "clientA" = [0] ∧
  ¬ (0 < 1000 - windowMs o) ∧
  spec_remaining o requests "clientA" 1000 = [0] ∧
  spec_decision o requests "clientA" 1000 = Status429 ∧
  userRequests o requests "clientA" 1000 = [] ∧
  (rateLimiter o requests "clientA" 1000).1 = Next ∧
  stored (rateLimiter o requests "clientA" 1000).2 "clientA" = [1000].
Proof. vm_compute. repeat split; try reflexivity. intros H; discriminate H. Qed.

Lemma elem_of_userRequests (o : Options) requests ip now time :
  time ∈ userRequests o requests ip now
  ↔ time ∈ stored requests ip ∧ now - time < windowMs o.
Proof. unfold userRequests. rewrite list_elem_of_filter. tauto. Qed.

(** C2, amended: the middleware keeps the timestamps [time] of the client
    with [now - time < windowMs], so that a timestamp at or before
    [now - windowMs] is pruned; when at least [max] remain it answers 429
    and leaves every stored list as it was; otherwise it stores the kept
    timestamps followed by [now] and lets the request through.  With
    [{windowMs: 1000, max: 2}] three requests of one client within less
    than a second get [next, next, 429].  When [max] is not negative, a
    limiter that started empty never holds more than [max] timestamps of a
    client inside the window [[now - windowMs, now]] after a decision. *)
Theorem rateLimiter_sliding_window (o : Options) (trace : list (string * Z))
    (ip : string) (now : Z) :
  0 ≤ max o →
  let requests := (run o ∅ trace).2 in
  let kept := userRequests o requests ip now in
  let response := (rateLimiter o requests ip now).1 in
  let requests' := (rateLimiter o requests ip now).2 in
  (∀ time, time ∈ kept ↔ time ∈ stored requests ip ∧ now - windowMs o < time) ∧
  (max o ≤ Z.of_nat (List.length kept) →
     response = Status429 ∧ ∀ k, stored requests' k = stored requests k) ∧
  (Z.of_nat (List.length kept) < max o →
     response = Next ∧ stored requests' ip = kept ++ [now] ∧
     ∀ k, k ≠ ip → stored requests' k = stored requests k) ∧
  (∀ k, Z.of_nat (count_in_window o requests' k now) ≤ max o) ∧
  (∀ t1 t2 t3, t1 ≤ t2 → t2 ≤ t3 → t3 - t1 < 1000 →
     (run {| windowMs := 1000; max := 2 |} ∅ [(ip, t1); (ip, t2); (ip, t3)]).1
       = [(ip, Next); (ip, Next); (ip, Status429)]).
Proof.
  intros Hmax requests kept response requests'.
  split; [|split; [|split; [|split]]].
  - intros time. unfold kept. rewrite elem_of_userRequests.
    split; intros [? ?]; split; auto; lia.
  - apply rateLimiter_reject.
  - apply rateLimiter_next.
  - intros k.
    assert (bounded o requests') as B.
    { apply rateLimiter_bounded. apply run_bounded. by apply bounded_empty. }
    pose proof (count_in_window_le o requests' k now). specialize (B k). lia.
  - intros t1 t2 t3 H12 H23 H13.
    set (o2 := {| windowMs := 1000; max := 2 |}).
    cbn [run].
    assert (rateLimiter o2 ∅ ip t1 = (Next, <[ip := [t1]]> ∅)) as ->.
    { unfold rateLimiter. rewrite lookup_empty. cbv zeta.
      unfold userRequests. rewrite stored_insert. simpl.
      by rewrite insert_insert_eq. }
    assert (rateLimiter o2 (<[ip := [t1]]> ∅) ip t2
            = (Next, <[ip := [t1; t2]]> ∅)) as ->.
    { unfold rateLimiter. rewrite lookup_insert_eq. cbv zeta.
      unfold userRequests. rewrite stored_insert.
      rewrite filter_cons_True by (simpl; lia). rewrite filter_nil. simpl.
      by rewrite insert_insert_eq. }
    assert (rateLimiter o2 (<[ip := [t1; t2]]> ∅) ip t3
            = (Status429, <[ip := [t1; t2]]> ∅)) as ->.
    { unfold rateLimiter. rewrite lookup_insert_eq. cbv zeta.
      unfold userRequests. rewrite stored_insert.
      rewrite filter_cons_True by (simpl; lia).
      rewrite filter_cons_True by (simpl; lia). rewrite filter_nil. done. }
    done.
Qed.

Lemma rateLimiter_sliding_window_witness :
  let o := {| windowMs := 1000; max := 2 |} in
  let requests := (run o ∅ [("clientA", 0); ("clientA", 1)]).2 in
  (rateLimiter o requests "clientA" 2).1 = Status429 ∧
  stored (rateLimiter o requests "clientA" 2).2 "clientA" = [0; 1] ∧
  (rateLimiter o requests "clientA" 1000).1 = Next ∧
  stored (rateLimiter o requests "clientA" 1000).2 "clientA" = [1; 1000] ∧
  (run o ∅ [("clientA", 5); ("clientA", 5); ("clientA", 5)]).1
    = [("clientA", Next); ("clientA", Next); ("clientA", Status429)].
Proof.
  intros o requests. subst requests.
  pose proof (rateLimiter_sliding_window o [("clientA", 0); ("clientA", 1)]
                "clientA" 2 ltac:(simpl; lia)) as (_ & Hrej & _ & _ & _).
  pose proof (rateLimiter_sliding_window o [("clientA", 0); ("clientA", 1)]
                "clientA" 1000 ltac:(simpl; lia)) as (_ & _ & Hnext & _ & Hscen).
  cbv zeta in Hrej, Hnext.
  destruct (Hrej ltac:(vm_compute; discriminate)) as [R1 R2].
  destruct (Hnext ltac:(vm_compute; reflexivity)) as (N1 & N2 & _).
  split; [exact R1|]. split; [rewrite R2; vm_compute; reflexivity|].
  split; [exact N1|]. split; [rewrite N2; vm_compute; reflexivity|].
  apply (Hscen 5 5 5); lia.
Defined.

End sliding_window.

(** ** Model handles *)

Section handles.
Import Model.

Implicit Types (env : Env) (h : Handle).

(** [load] never reads [isLoaded]. *)
Lemma load_ignores_isLoaded env h b :
  load env (set_isLoaded b h) = load env h.
Proof.
  unfold load, init_backend, modelPath. cbn [set_isLoaded config kind].
  destruct (existsSync env (path (config h))); [|done].
  destruct (kind h).
  - destruct (LLModel_new env (config h)); [|done].
    by destruct (LLModel_load env a).
  - by destruct (pipeline env (path (config h))).
  - by destruct (InferenceSession_create _ _ _).
Qed.

(** A successful [load] leaves the handle loaded, holding the instance just
    created. *)
Lemma load_ok env h b :
  (load env h).1 = Ok b →
  b = true ∧ isLoaded (load env h).2 = true ∧
  ∃ i, created env h = Ok i ∧ backend (load env h).2 = Some i.
Proof.
  unfold load, init_backend, created, modelPath.
  destruct (existsSync env (path (config h))); [|done].
  destruct (kind h).
  - destruct (LLModel_new env (config h)) as [i|]; [|done].
    destruct (LLModel_load env i); [|done].
    cbn. intros [= <-]. eauto.
  - destruct (pipeline env (path (config h))) as [i|]; [|done].
    cbn. intros [= <-]. eauto.
  - destruct (InferenceSession_create _ _ _) as [i|]; [|done].
    cbn. intros [= <-]. eauto.
Qed.

(** A failed [load] leaves the handle not loaded. *)
Lemma load_throw env h e :
  (load env h).1 = Throw e → isLoaded (load env h).2 = false.
Proof.
  unfold load, init_backend, modelPath.
  destruct (existsSync env (path (config h))); [|done].
  destruct (kind h).
  - destruct (LLModel_new env (config h)) as [i|]; [|done].
    by destruct (LLModel_load env i).
  - by destruct (pipeline env (path (config h))).
  - by destruct (InferenceSession_create _ _ _).
Qed.

(** C9: [unload()] on a handle that is not loaded returns [true], raises
    nothing and leaves the handle as it is. *)
Theorem unload_unloaded h :
  isLoaded h = false → unload h = (Ok true, h).
Proof. intros E. unfold unload. by rewrite E. Qed.

Lemma unload_unloaded_witness :
  unload (Model.new MistralModel Sample.mistral_config)
  = (Ok true, Model.new MistralModel Sample.mistral_config).
Proof. apply unload_unloaded. reflexivity. Defined.

(** C4, as stated, fails: a Mistral handle is loaded, then its model
    directory disappears; [load()] on the loaded handle throws and the
    handle is no longer loaded. *)
Lemma load_again_fails :
  let h := (load (Sample.world Sample.disk)
              (Model.new MistralModel Sample.mistral_config)).2 in
  isLoaded h = true ∧ backend h = Some 2%nat ∧
  (load (Sample.world Sample.bare_disk) h).1
    = Throw "Model path tidak ditemukan: ./models/mistral7b" ∧
  isLoaded (load (Sample.world Sample.bare_disk) h).2 = false.
Proof. vm_compute. repeat split; reflexivity. Qed.

(** C4, amended: [load()] on a loaded handle runs the whole load again, as
    on a handle that is not loaded.  When the model path exists and the
    library creates (and, for LlamaModel, loads) a new instance, it returns
    [true], the handle stays loaded and holds the new instance; when the
    path is missing or the library fails, it throws and the handle is no
    longer loaded. *)
Theorem load_on_loaded env h :
  isLoaded h = true →
  load env h = load env (set_isLoaded false h) ∧
  (existsSync env (modelPath h) = false →
     load env h
     = (Throw ("Model path tidak ditemukan: " +:+ modelPath h),
        set_isLoaded false h)) ∧
  (∀ i, existsSync env (modelPath h) = true → initialised env h = Ok i →
     (load env h).1 = Ok true ∧
     isLoaded (load env h).2 = true ∧
     backend (load env h).2 = Some i ∧
     kind (load env h).2 = kind h ∧ config (load env h).2 = config h) ∧
  (∀ e, existsSync env (modelPath h) = true → initialised env h = Throw e →
     (load env h).1 = Throw e ∧ isLoaded (load env h).2 = false) ∧
  (∀ b, (load env h).1 = Ok b →
     b = true ∧ isLoaded (load env h).2 = true ∧
     ∃ i, created env h = Ok i ∧ backend (load env h).2 = Some i) ∧
  (∀ e, (load env h).1 = Throw e → isLoaded (load env h).2 = false).
Proof.
  intros _. split; [by rewrite load_ignores_isLoaded|].
  split; [intros E; unfold load; by rewrite E|].
  split; [|split; [|split; [apply load_ok|apply load_throw]]].
  - intros i E. unfold load. rewrite E. unfold init_backend, initialised, modelPath.
    destruct (kind h) eqn:K.
    + destruct (LLModel_new env (config h)) as [m|]; [|done].
      destruct (LLModel_load env m); [|done]. intros [= ->]. cbn. by rewrite K.
    + destruct (pipeline env (path (config h))) as [p|]; [|done].
      intros [= ->]. cbn. by rewrite K.
    + destruct (InferenceSession_create _ _ _) as [s|]; [|done].
      intros [= ->]. cbn. by rewrite K.
  - intros e E. unfold load. rewrite E. unfold init_backend, initialised, modelPath.
    destruct (kind h).
    + destruct (LLModel_new env (config h)) as [m|]; [|intros [= ->]; done].
      destruct (LLModel_load env m); [done|]. intros [= ->]. done.
    + destruct (pipeline env (path (config h))) as [p|]; [done|].
      intros [= ->]. done.
    + destruct (InferenceSession_create _ _ _) as [s|]; [done|].
      intros [= ->]. done.
Qed.

Lemma load_on_loaded_witness :
  let h := (load (Sample.world Sample.disk)
              (Model.new MistralModel Sample.mistral_config)).2 in
  (load (Sample.world Sample.disk) h).1 = Ok true ∧
  isLoaded (load (Sample.world Sample.disk) h).2 = true ∧
  backend (load (Sample.world Sample.disk) h).2 = Some 2%nat ∧
  load (Sample.world Sample.bare_disk) h
    = (Throw "Model path tidak ditemukan: ./models/mistral7b",
       set_isLoaded false h).
Proof.
  intros h.
  destruct (load_on_loaded (Sample.world Sample.disk) h ltac:(reflexivity))
    as (_ & _ & Hok & _).
  destruct (load_on_loaded (Sample.world Sample.bare_disk) h ltac:(reflexivity))
    as (_ & Hgone & _).
  destruct (Hok 2%nat ltac:(reflexivity) ltac:(reflexivity)) as (E & L & B & _).
  split; [exact E|]. split; [exact L|]. split; [exact B|].
  exact (Hgone ltac:(reflexivity)).
Defined.

End handles.

Section capabilities.
Import Model.

Implicit Types (env : Env) (h : Handle).

(** C3, as stated, fails for [train], [evaluate] and [save]: on a handle
    that was never loaded, in a world where its model directory does not
    even exist, all three succeed and the handle is still not loaded, while
    [generate] on the same handle tries to load and throws. *)
Lemma train_without_load :
  let h := Model.new MistralModel Sample.mistral_config in
  let env := Sample.world Sample.bare_disk in
  isLoaded h = false ∧
  is_ok (train h [JObj [("input", JStr "q")]] ∅ 7).1 = true ∧
  (train h [JObj [("input", JStr "q")]] ∅ 7).2 = h ∧
  is_ok (evaluate h [] 7).1 = true ∧ (evaluate h [] 7).2 = h ∧
  save env h "checkpoints/mistral" = (Ok true, h) ∧
  (generate env h "halo" ∅).1
    = Throw "Model path tidak ditemukan: ./models/mistral7b".
Proof. vm_compute. repeat split; reflexivity. Qed.

(** C3, amended: [generate] needs the handle loaded and, on a handle that
    is not, runs [load] first: when that load fails, [generate] fails with
    its error and the backend is not called; when it succeeds, the backend
    is called on the loaded handle.  A [generate] that returns text always
    leaves a loaded handle.  [train], [evaluate] and [save] do not look at
    the load state: on every handle, loaded or not, they run without a load
    and leave the handle as it is, and [train] and [evaluate] succeed. *)
Theorem capabilities_and_load env h (p : string) (options : gmap string JSON)
    (data : list JSON) (now : Z) (savePath : string) :
  (isLoaded h = false →
     (∀ e, (load env h).1 = Throw e →
        generate env h p options = (Throw e, (load env h).2)) ∧
     (∀ b, (load env h).1 = Ok b →
        isLoaded (load env h).2 = true ∧
        generate env h p options
          = (run_backend env (load env h).2 p options, (load env h).2))) ∧
  (isLoaded h = true →
     generate env h p options = (run_backend env h p options, h)) ∧
  (is_ok (generate env h p options).1 = true →
     isLoaded (generate env h p options).2 = true) ∧
  (is_ok (train h data options now).1 = true ∧ (train h data options now).2 = h) ∧
  (is_ok (evaluate h data now).1 = true ∧ (evaluate h data now).2 = h) ∧
  (save env h savePath).2 = h.
Proof.
  split; [|split; [|split; [|split; [|split]]]].
  - intros E. unfold generate. rewrite E. split.
    + intros e He. destruct (load env h) as [[b|e'] h1]; simpl in *; congruence.
    + intros b Hb. split; [by apply (load_ok env h b)|].
      destruct (load env h) as [[b'|e'] h1]; simpl in *; congruence.
  - intros E. unfold generate. by rewrite E.
  - unfold generate. destruct (isLoaded h) eqn:E; [done|].
    destruct (load env h) as [[b|e'] h1] eqn:EL; simpl; [|done].
    intros _. pose proof (load_ok env h b) as L. rewrite EL in L.
    by apply L.
  - unfold train. by destruct (kind h).
  - unfold evaluate. by destruct (kind h).
  - unfold save.
    destruct (if existsSync env _ then _ else _); [|done].
    by destruct (writeFileSync env _).
Qed.

Lemma capabilities_and_load_witness :
  let h := Model.new MistralModel Sample.mistral_config in
  let env := Sample.world Sample.disk in
  (generate env h "halo" ∅).1 = Ok " and so on" ∧
  isLoaded (generate env h "halo" ∅).2 = true ∧
  generate (Sample.world Sample.bare_disk) h "halo" ∅
    = (Throw "Model path tidak ditemukan: ./models/mistral7b",
       (load (Sample.world Sample.bare_disk) h).2) ∧
  (train h [] ∅ 7).2 = h.
Proof.
  intros h env.
  destruct (capabilities_and_load env h "halo" ∅ [] 7 "")
    as (Hun & _ & Hok & (_ & Htrain) & _).
  destruct (capabilities_and_load (Sample.world Sample.bare_disk) h "halo" ∅ [] 7 "")
    as (Hun' & _).
  destruct (Hun ltac:(reflexivity)) as [_ Hrun].
  destruct (Hun' ltac:(reflexivity)) as [Hfail _].
  assert ((generate env h "halo" ∅).1 = Ok " and so on") as E
    by (vm_compute; reflexivity).
  split; [exact E|]. split; [apply Hok; by rewrite E|].
  split; [apply Hfail; vm_compute; reflexivity|exact Htrain].
Defined.

End capabilities.

(** ** The registry and the fan-out *)

Section fan_out.
Import Model ModelManager.

Implicit Types (m : ModelManager.t) (call : Handle → Result string * Handle).

(** Writing one key per settled promise, in any order, gives the map of
    the values written, as long as no key is written twice and none is
    [__proto__]. *)
Lemma collect_foldl (settled : list (string * (Result string * Handle))) :
  NoDup settled.*1 →
  Forall (λ s, s.1 ≠ "__proto__") settled →
  ∀ (acc : gmap string string) (k : string),
    foldl (λ res s, JS.set res s.1 (entry s.2.1)) acc settled !! k
    = match (list_to_map settled : gmap string _) !! k with
      | Some r => Some (entry r.1)
      | None => acc !! k
      end.
Proof.
  induction settled as [|[name r] rest IH]; intros ND NP acc k; [done|].
  apply NoDup_cons in ND as [Hname ND]. apply Forall_cons in NP as [Hp NP].
  cbn [foldl fst snd]. rewrite IH by done.
  cbn [list_to_map foldr fst snd].
  destruct (decide (name = k)) as [->|Hk].
  - rewrite lookup_insert_eq.
    rewrite (not_elem_of_list_to_map_1 rest k Hname).
    unfold JS.set. rewrite bool_decide_false by done.
    by rewrite lookup_insert_eq.
  - rewrite (lookup_insert_ne _ name k) by done.
    destruct ((list_to_map rest : gmap string _) !! k); [done|].
    unfold JS.set. rewrite bool_decide_false by done.
    by rewrite lookup_insert_ne.
Qed.

Lemma after_foldl (settled : list (string * (Result string * Handle))) :
  NoDup settled.*1 →
  ∀ (acc : gmap string Handle) (k : string),
    foldl (λ a s, <[s.1 := s.2.2]> a) acc settled !! k
    = match (list_to_map settled : gmap string _) !! k with
      | Some r => Some r.2
      | None => acc !! k
      end.
Proof.
  induction settled as [|[name r] rest IH]; intros ND acc k; [done|].
  apply NoDup_cons in ND as [Hname ND].
  cbn [foldl fst snd]. rewrite IH by done.
  cbn [list_to_map foldr fst snd].
  destruct (decide (name = k)) as [->|Hk].
  - rewrite lookup_insert_eq.
    rewrite (not_elem_of_list_to_map_1 rest k Hname).
    by rewrite lookup_insert_eq.
  - rewrite !(lookup_insert_ne _ name k) by done.
    by destruct ((list_to_map rest : gmap string _) !! k).
Qed.

(** The promises, read as a map. *)
Lemma promises_map call m :
  (list_to_map (promises call m) : gmap string _) = call <$> models m.
Proof.
  unfold promises, JS.entries.
  rewrite <- (list_to_map_to_list (call <$> models m)).
  apply list_to_map_proper.
  - rewrite <- list_fmap_compose.
    rewrite (list_fmap_ext _ fst (map_to_list (models m))) by done.
    apply NoDup_fst_map_to_list.
  - rewrite map_to_list_fmap.
    apply Permutation_refl'. apply list_fmap_ext. by intros ? [].
Qed.

Lemma promises_keys call m :
  (promises call m).*1 = (map_to_list (models m)).*1.
Proof.
  unfold promises, JS.entries. rewrite <- list_fmap_compose.
  by apply list_fmap_ext.
Qed.

(** In whatever order the promises settle, [results] ends up with the entry
    of each handle under its name. *)
Lemma collect_any_order call m settled :
  settled ≡ₚ promises call m →
  models m !! "__proto__" = None →
  collect settled = (λ h, entry (call h).1) <$> models m.
Proof.
  intros HP Hproto. apply map_eq. intros k.
  assert (NoDup settled.*1) as ND.
  { rewrite HP, promises_keys. apply NoDup_fst_map_to_list. }
  assert (Forall (λ s, s.1 ≠ "__proto__") settled) as NP.
  { rewrite HP. apply Forall_forall. intros [name r] Hin Hname.
    simpl in Hname. subst name.
    assert ("__proto__" ∈ (promises call m).*1) as Hk.
    { apply list_elem_of_fmap. by exists ("__proto__", r). }
    rewrite promises_keys in Hk.
    apply list_elem_of_fmap in Hk as ([k' h] & Hk' & Hin').
    simpl in Hk'. subst k'. apply elem_of_map_to_list in Hin'. congruence. }
  unfold collect. rewrite collect_foldl by done.
  rewrite (list_to_map_proper settled (promises call m)) by done.
  rewrite promises_map, !lookup_fmap, lookup_empty.
  by destruct (models m !! k).
Qed.

Lemma after_any_order call m settled :
  settled ≡ₚ promises call m →
  after settled (models m) = (λ h, (call h).2) <$> models m.
Proof.
  intros HP. apply map_eq. intros k.
  assert (NoDup settled.*1) as ND.
  { rewrite HP, promises_keys. apply NoDup_fst_map_to_list. }
  unfold after. rewrite after_foldl by done.
  rewrite (list_to_map_proper settled (promises call m)) by done.
  rewrite promises_map, !lookup_fmap.
  by destruct (models m !! k).
Qed.

End fan_out.

Section registry_claims.
Import Model ModelManager.

Implicit Types (m : ModelManager.t).

(** C1: on an initialized registry whose handle names are ordinary property
    names, [generateFromAllModels] resolves; its [results] has exactly the
    registered names as keys; under each name it holds the text generated
    by that handle, or [ERROR: ] followed by the message of the error that
    handle raised; the object carries the prompt and a timestamp; and the
    order in which the handles answer does not matter. *)
Theorem generateFromAllModels_isolated (env : Env) m (p : string)
    (options : gmap string JSON) (now : Z) :
  initialized m = true →
  models m !! "__proto__" = None →
  ∃ out,
    (generateFromAllModels env m p options now).1 = Ok out ∧
    dom (results out) = dom (models m) ∧
    (∀ name h, models m !! name = Some h →
       match (generate env h p options).1 with
       | Ok text => results out !! name = Some text
       | Throw message => results out !! name = Some ("ERROR: " +:+ message)
       end) ∧
    prompt out = p ∧ timestamp out = now ∧
    (∀ settled, settled ≡ₚ promises (λ h, generate env h p options) m →
       collect settled = results out).
Proof.
  intros Hinit Hproto. unfold generateFromAllModels. rewrite Hinit. cbn.
  eexists. split; [reflexivity|]. cbn.
  pose proof (collect_any_order (λ h, generate env h p options) m _
                (Permutation_refl _) Hproto) as E.
  rewrite E. split; [apply dom_fmap_L|]. split.
  - intros name h Hh.
    pose proof (lookup_fmap (λ h, entry (generate env h p options).1) (models m) name) as L.
    rewrite Hh in L. cbn in L.
    by destruct ((generate env h p options).1).
  - split; [done|]. split; [done|].
    intros settled HP. by apply collect_any_order.
Qed.

Lemma generateFromAllModels_isolated_witness :
  let m := (init Sample.config ModelManager.new).2 in
  ∃ out,
    (generateFromAllModels (Sample.world Sample.disk) m "halo" ∅ 7).1 = Ok out ∧
    results out !! "llama" = Some "llama says: halo" ∧
    results out !! "mistral" = Some " and so on" ∧
    results out !! "gptj" = Some "ERROR: Load model failed" ∧
    timestamp out = 7.
Proof.
  intros m.
  destruct (generateFromAllModels_isolated (Sample.world Sample.disk) m "halo" ∅ 7
              ltac:(reflexivity) ltac:(vm_compute; reflexivity))
    as (out & E & _ & Hentries & _ & Ht & _).
  exists out. split; [exact E|].
  split; [exact (Hentries "llama" (Model.new LlamaModel
            {| path := "./models/llama2"; contextSize := 2048;
               batchSize := 512; threads := 4 |}) ltac:(vm_compute; reflexivity))|].
  split; [exact (Hentries "mistral" (Model.new MistralModel
            {| path := "./models/mistral7b"; contextSize := 2048;
               batchSize := 512; threads := 4 |}) ltac:(vm_compute; reflexivity))|].
  split; [exact (Hentries "gptj" (Model.new GptjModel
            {| path := "./models/gptj"; contextSize := 2048;
               batchSize := 512; threads := 4 |}) ltac:(vm_compute; reflexivity))|].
  exact Ht.
Defined.

(** A successful [init] registers the three handles and nothing else. *)
Lemma init_registers (cfg : Config) m b :
  models m = ∅ →
  (init cfg m).1 = Ok b →
  initialized (init cfg m).2 = true ∧
  dom (models (init cfg m).2) = {[ "llama"; "mistral"; "gptj" ]}.
Proof.
  intros E. unfold init.
  destruct (llama cfg); [|done]. destruct (mistral cfg); [|done].
  destruct (gptj cfg); [|done]. cbn. intros _. split; [done|].
  rewrite E, !dom_insert_L, dom_empty_L. set_solver.
Qed.

(** No operation of the registry creates an own property [__proto__]. *)
Lemma init_ordinary_names (cfg : Config) m :
  models m !! "__proto__" = None →
  models (init cfg m).2 !! "__proto__" = None.
Proof.
  intros E. unfold init.
  destruct (llama cfg); [|done]. destruct (mistral cfg); cbn.
  - destruct (gptj cfg); cbn; by rewrite !lookup_insert_ne.
  - by rewrite lookup_insert_ne.
Qed.

(** Each fan-out call raises exactly when the registry is not initialized,
    and then with the not-initialized error and without touching the
    registry. *)
Lemma fan_out_ok_iff_initialized (env : Env) m (p : string)
    (options : gmap string JSON) (now : Z) :
  is_ok (generateFromAllModels env m p options now).1 = initialized m ∧
  is_ok (loadAllModels env m now).1 = initialized m ∧
  is_ok (unloadAllModels m now).1 = initialized m ∧
  (initialized m = false →
     generateFromAllModels env m p options now = (Throw notInitialized, m) ∧
     loadAllModels env m now = (Throw notInitialized, m) ∧
     unloadAllModels m now = (Throw notInitialized, m)).
Proof.
  unfold generateFromAllModels, loadAllModels, unloadAllModels.
  repeat split; destruct (initialized m); done.
Qed.

(** The fan-out calls keep the names of the registry. *)
Lemma after_is_Some call m (k : string) :
  is_Some (after (promises call m) (models m) !! k) ↔ is_Some (models m !! k).
Proof.
  rewrite (after_any_order call m _ (Permutation_refl _)), lookup_fmap.
  apply fmap_is_Some.
Qed.

(** In every state the registry can be in, the registered names are among
    [llama], [mistral] and [gptj], and an initialized registry holds all
    three: an initialized registry is never empty. *)
Lemma reachable_names m :
  reachable m →
  (∀ k : string, is_Some (models m !! k) →
     k = "llama" ∨ k = "mistral" ∨ k = "gptj") ∧
  (initialized m = true →
     is_Some (models m !! "llama") ∧ is_Some (models m !! "mistral") ∧
     is_Some (models m !! "gptj")).
Proof.
  induction 1 as [|cfg m _ [IH1 IH2]|env m p options now _ [IH1 IH2]
                  |env m now _ [IH1 IH2]|m now _ [IH1 IH2]
                  |m name h h' _ [IH1 IH2] Hh].
  - cbn. split; [|done]. intros k [x Hx]. by rewrite lookup_empty in Hx.
  - unfold init.
    destruct (llama cfg) as [cl|]; [|by split].
    destruct (mistral cfg) as [cm|]; cbn [snd models initialized].
    + destruct (gptj cfg) as [cg|]; cbn [snd models initialized].
      * split.
        -- intros k Hk.
           apply lookup_insert_is_Some in Hk as [<-|[_ Hk]]; [tauto|].
           apply lookup_insert_is_Some in Hk as [<-|[_ Hk]]; [tauto|].
           apply lookup_insert_is_Some in Hk as [<-|[_ Hk]]; [tauto|].
           by apply IH1.
        -- intros _. rewrite !lookup_insert_is_Some. repeat split.
           ++ right. split; [done|]. right. split; [done|]. by left.
           ++ right. split; [done|]. by left.
           ++ by left.
      * split; [|done]. intros k Hk.
        apply lookup_insert_is_Some in Hk as [<-|[_ Hk]]; [tauto|].
        apply lookup_insert_is_Some in Hk as [<-|[_ Hk]]; [tauto|].
        by apply IH1.
    + split; [|done]. intros k Hk.
      apply lookup_insert_is_Some in Hk as [<-|[_ Hk]]; [tauto|].
      by apply IH1.
  - unfold generateFromAllModels. destruct (initialized m) eqn:E;
      [|cbn [negb snd]; split; [done|congruence]].
    cbn [negb snd models initialized]. split.
    + intros k Hk%after_is_Some. by apply IH1.
    + intros _. rewrite !after_is_Some. by apply IH2.
  - unfold loadAllModels. destruct (initialized m) eqn:E;
      [|cbn [negb snd]; split; [done|congruence]].
    cbn [negb snd models initialized]. split.
    + intros k Hk%after_is_Some. by apply IH1.
    + intros _. rewrite !after_is_Some. by apply IH2.
  - unfold unloadAllModels. destruct (initialized m) eqn:E;
      [|cbn [negb snd]; split; [done|congruence]].
    cbn [negb snd models initialized]. split.
    + intros k Hk%after_is_Some. by apply IH1.
    + intros _. rewrite !after_is_Some. by apply IH2.
  - cbn [models initialized]. split.
    + intros k Hk. apply lookup_insert_is_Some in Hk as [<-|[_ Hk]].
      * apply IH1. by exists h.
      * by apply IH1.
    + intros Hi. destruct (IH2 Hi) as (Hl & Hm & Hg).
      rewrite !lookup_insert_is_Some.
      repeat split.
      * destruct (decide (name = "llama")); [by left|by right].
      * destruct (decide (name = "mistral")); [by left|by right].
      * destruct (decide (name = "gptj")); [by left|by right].
Qed.

Lemma reachable_ordinary_names m :
  reachable m → models m !! "__proto__" = None.
Proof.
  intros [Hsub _]%reachable_names.
  destruct (models m !! "__proto__") as [h|] eqn:E; [|done].
  destruct (Hsub "__proto__") as [H|[H|H]]; [by rewrite E| | |]; discriminate H.
Qed.

(** C5: in every state the registry can be in, each fan-out call
    ([generateFromAllModels], [loadAllModels], [unloadAllModels]) raises
    exactly when the registry is not initialized or holds no handle, and
    then with the not-initialized error; in all other cases it resolves
    with a result map that has one entry per registered handle, the text
    or status of the handle or the message of the error that handle
    raised, so no handle's failure becomes the failure of the call. *)
Theorem fan_out_structural (env : Env) m (p : string)
    (options : gmap string JSON) (now : Z) :
  reachable m →
  (initialized m = false ∨ models m = ∅ →
     generateFromAllModels env m p options now = (Throw notInitialized, m) ∧
     loadAllModels env m now = (Throw notInitialized, m) ∧
     unloadAllModels m now = (Throw notInitialized, m)) ∧
  (¬ (initialized m = false ∨ models m = ∅) →
     ∃ generated loaded unloaded,
       (generateFromAllModels env m p options now).1 = Ok generated ∧
       (loadAllModels env m now).1 = Ok loaded ∧
       (unloadAllModels m now).1 = Ok unloaded ∧
       dom (results generated) = dom (models m) ∧
       dom (status_results loaded) = dom (models m) ∧
       dom (status_results unloaded) = dom (models m) ∧
       ∀ name h, models m !! name = Some h →
         results generated !! name = Some (entry (generate env h p options).1) ∧
         status_results loaded !! name
         = Some (entry (as_status (load env h)).1) ∧
         status_results unloaded !! name
         = Some (entry (as_status (unload h)).1)) ∧
  ((is_ok (generateFromAllModels env m p options now).1 = false
    ↔ initialized m = false ∨ models m = ∅) ∧
   (is_ok (loadAllModels env m now).1 = false
    ↔ initialized m = false ∨ models m = ∅) ∧
   (is_ok (unloadAllModels m now).1 = false
    ↔ initialized m = false ∨ models m = ∅)).
Proof.
  intros R. pose proof (reachable_names m R) as [_ Hfull].
  pose proof (reachable_ordinary_names m R) as Hproto.
  assert (initialized m = false ∨ models m = ∅ ↔ initialized m = false)
    as Hstruct.
  { split; [|by left]. intros [E|E]; [done|].
    destruct (initialized m); [|done].
    destruct (Hfull eq_refl) as ([h Hh] & _).
    by rewrite E, lookup_empty in Hh. }
  pose proof (fan_out_ok_iff_initialized env m p options now)
    as (Eg & El & Eu & Hraise).
  split; [|split].
  - intros Hs. apply Hraise. by apply Hstruct.
  - intros Hs. assert (initialized m = true) as Hi.
    { destruct (initialized m); [done|]. exfalso. apply Hs. by left. }
    unfold generateFromAllModels, loadAllModels, unloadAllModels.
    rewrite Hi. cbn [negb fst].
    eexists _, _, _. split; [reflexivity|]. split; [reflexivity|].
    split; [reflexivity|]. cbn [results status_results].
    rewrite !(collect_any_order _ m _ (Permutation_refl _) Hproto).
    rewrite !dom_fmap_L. split; [done|]. split; [done|]. split; [done|].
    intros name h Hh. rewrite !lookup_fmap, Hh. done.
  - rewrite Eg, El, Eu, !Hstruct. done.
Qed.

Lemma fan_out_structural_witness :
  let m := (init Sample.config ModelManager.new).2 in
  generateFromAllModels (Sample.world Sample.disk) ModelManager.new "halo" ∅ 7
  = (Throw notInitialized, ModelManager.new) ∧
  ∃ generated,
    (generateFromAllModels (Sample.world Sample.disk) m "halo" ∅ 7).1
    = Ok generated ∧
    results generated !! "gptj" = Some "ERROR: Load model failed".
Proof.
  intros m.
  destruct (fan_out_structural (Sample.world Sample.disk) ModelManager.new
              "halo" ∅ 7 reachable_new) as (Hraise & _ & _).
  destruct (fan_out_structural (Sample.world Sample.disk) m "halo" ∅ 7
              (reachable_init Sample.config _ reachable_new))
    as (_ & Hresolve & _).
  split; [exact (proj1 (Hraise (or_introl eq_refl)))|].
  destruct Hresolve
    as (generated & loaded & unloaded & E & _ & _ & _ & _ & _ & Hentries).
  { intros [Hi|He]; [discriminate Hi|].
    assert (models m !! "llama" = None) as Hn by (rewrite He; apply lookup_empty).
    discriminate Hn. }
  exists generated. split; [exact E|].
  exact (proj1 (Hentries "gptj" (Model.new GptjModel
            {| path := "./models/gptj"; contextSize := 2048;
               batchSize := 512; threads := 4 |}) ltac:(vm_compute; reflexivity))).
Defined.

(** C6 fails on names that every plain object inherits: on the registry
    that [init] builds, [constructor] is not a registered name, and neither
    is [__proto__], yet [getModel] returns the inherited member instead of
    raising the not-found error. *)
Theorem getModel_inherited_name :
  let m := (init Sample.config ModelManager.new).2 in
  initialized m = true ∧
  models m !! "constructor" = None ∧
  getModel m "constructor" = Ok (JS.Inherited "constructor") ∧
  models m !! JS.toLowerCase "__PROTO__" = None ∧
  getModel m "__PROTO__" = Ok (JS.Inherited "__proto__").
Proof. vm_compute. repeat split; reflexivity. Qed.

(** What does hold of [getModel]. *)
Lemma getModel_uninitialized m (name : string) :
  initialized m = false → getModel m name = Throw notInitialized.
Proof. intros E. unfold getModel. by rewrite E. Qed.

Lemma getModel_registered m (name : string) h :
  initialized m = true →
  models m !! JS.toLowerCase name = Some h →
  getModel m name = Ok (JS.Own h).
Proof.
  intros E Hh. unfold getModel, JS.get. by rewrite E, Hh.
Qed.

Lemma getModel_absent m (name : string) :
  initialized m = true →
  models m !! JS.toLowerCase name = None →
  JS.toLowerCase name ∉ JS.Object_prototype →
  getModel m name = Throw (notFound name).
Proof.
  intros E Hh Hp. unfold getModel, JS.get.
  by rewrite E, Hh, bool_decide_false.
Qed.

(** Names that differ by case only resolve to the same value. *)
Lemma getModel_case_variants m (n1 n2 : string) v :
  JS.toLowerCase n1 = JS.toLowerCase n2 →
  getModel m n1 = Ok v → getModel m n2 = Ok v.
Proof.
  intros E. unfold getModel. destruct (initialized m); [|done]. cbn.
  rewrite E. by destruct (JS.get (models m) (JS.toLowerCase n2)).
Qed.

Example getModel_llama_any_case :
  let m := (init Sample.config ModelManager.new).2 in
  getModel m "LLaMA" = getModel m "llama" ∧ is_ok (getModel m "llama") = true ∧
  getModel m "bert" = Throw "Model 'bert' tidak ditemukan" ∧
  getModel ModelManager.new "llama" = Throw notInitialized.
Proof. vm_compute. repeat split; reflexivity. Qed.

End registry_claims.

(** ** The trainer *)

Section merging.
Import Trainer.

(** Merging from any accumulator appends the documents in file order. *)
Lemma merge_loop_app (env : Env) (files : list string) (docs : list (list JSON)) :
  Forall2 (λ file items, loadTrainingData env file = Ok (JArr items)) files docs →
  ∀ acc, merge_loop env acc files = Ok (acc ++ mjoin docs).
Proof.
  induction 1 as [|file items files docs Hfile _ IH]; intros acc.
  - cbn. by rewrite app_nil_r.
  - cbn [merge_loop]. rewrite Hfile. cbn [Array_concat].
    rewrite IH. cbn. by rewrite app_assoc.
Qed.

(** C8: when every file of the list loads and parses to an array of
    examples, [mergeTrainingData] returns the examples of the first file in
    their order, then those of the second, and so on; the merged length is
    the sum of the lengths. *)
Theorem mergeTrainingData_concat (env : Env) (files : list string)
    (docs : list (list JSON)) :
  Forall2 (λ file items, loadTrainingData env file = Ok (JArr items)) files docs →
  mergeTrainingData env files = Ok (mjoin docs) ∧
  List.length (mjoin docs) = sum_list (List.length <$> docs).
Proof.
  intros H. split.
  - unfold mergeTrainingData. by rewrite (merge_loop_app env files docs H).
  - clear H. induction docs as [|d docs IH]; [done|].
    change (mjoin (d :: docs)) with (d ++ mjoin docs).
    rewrite length_app, IH. done.
Qed.

Lemma mergeTrainingData_concat_witness :
  mergeTrainingData (Sample.world Sample.disk) ["data/a.json"; "data/b.json"]
  = Ok [ JObj [("input", JStr "q1"); ("output", JStr "a1")];
         JObj [("prompt", JStr "q2"); ("completion", JStr "a2")];
         JObj [("input", JStr "q3"); ("output", JStr "a3")] ].
Proof.
  refine (proj1 (mergeTrainingData_concat (Sample.world Sample.disk)
            ["data/a.json"; "data/b.json"]
            [ [ JObj [("input", JStr "q1"); ("output", JStr "a1")];
                JObj [("prompt", JStr "q2"); ("completion", JStr "a2")] ];
              [ JObj [("input", JStr "q3"); ("output", JStr "a3")] ] ] _)).
  repeat constructor.
Defined.

(** A file that does not hold an array is appended as one element, and a
    file that fails to load aborts the merge. *)
Example mergeTrainingData_other_inputs :
  let env := Sample.world
    {| Sample.present := ["x.json"; "y.json"]; Sample.listing := [];
       Sample.contents := [("x.json", "X")];
       Sample.documents := [("X", JObj [("input", JStr "q")])] |} in
  mergeTrainingData env ["x.json"] = Ok [JObj [("input", JStr "q")]] ∧
  mergeTrainingData env ["x.json"; "y.json"] = Throw "ENOENT: y.json" ∧
  mergeTrainingData env ["z.json"]
    = Throw "File data pelatihan tidak ditemukan: z.json".
Proof. vm_compute. repeat split; reflexivity. Qed.

End merging.

Section periodic_training.
Import Trainer.

Implicit Types (env : Env) (tr : Trainer.t) (sys : System).

(** The promise of a firing is always fulfilled. *)
Lemma firing_fulfilled env tr mgr (modelType : string) (now : Z) :
  ∃ report mgr', firing env tr mgr modelType now = (Ok (), report, mgr').
Proof.
  unfold firing.
  destruct (firing_body env tr mgr modelType now) as [[report|e] mgr']; eauto.
Qed.

(** A firing that finds no file does nothing. *)
Lemma firing_skips env tr mgr (modelType : string) (now : Z) :
  findTrainingDataFiles env tr = Ok [] →
  firing env tr mgr modelType now = (Ok (), Skipped, mgr).
Proof. intros E. unfold firing, firing_body. by rewrite E. Qed.

(** Whatever happens in a firing, the timers are as before. *)
Lemma tick_timers env tr sys (id : nat) (now : Z) :
  timers (tick env tr sys id now).2 = timers sys.
Proof.
  unfold tick. destruct (active (timers sys) !! id); [|done].
  by destruct (firing env tr (manager sys) (job_modelType j) now) as [[? ?] ?].
Qed.

Lemma tick_fires env tr sys (id : nat) (now : Z) job :
  active (timers sys) !! id = Some job →
  ∃ report, (tick env tr sys id now).1 = Some (Ok (), report).
Proof.
  intros E. unfold tick. rewrite E.
  destruct (firing_fulfilled env tr (manager sys) (job_modelType job) now)
    as (report & mgr' & ->). eauto.
Qed.

(** Every moment of a run fires, and the run leaves the timers alone. *)
Lemma ticks_all_fire tr (id : nat) job (moments : list (Env * Z)) :
  ∀ sys,
    active (timers sys) !! id = Some job →
    Forall (λ r, ∃ report, r = Some (Ok (), report)) (ticks tr sys id moments).1 ∧
    List.length (ticks tr sys id moments).1 = List.length moments ∧
    timers (ticks tr sys id moments).2 = timers sys.
Proof.
  induction moments as [|[env now] rest IH]; intros sys E; [by repeat split|].
  cbn [ticks].
  pose proof (tick_timers env tr sys id now) as T.
  destruct (tick_fires env tr sys id now job E) as [report R].
  destruct (tick env tr sys id now) as [r sys']. cbn in T, R.
  destruct (IH sys' ltac:(by rewrite T)) as (F & L & T').
  destruct (ticks tr sys' id rest) as [rs final]. cbn in *.
  split; [|split].
  - constructor; eauto.
  - by rewrite L.
  - by rewrite T'.
Qed.

(** C7: a firing of the periodic job always ends without raising.  When it
    finds no training-data file it skips, and the whole state (manager and
    timers) is as before.  An error raised while looking for the files,
    while merging them or while training is caught and reported by that
    firing.  In every case the timers are untouched, so each later moment
    of the schedule fires again. *)
Theorem firing_isolated env tr sys (id : nat) (now : Z) job :
  active (timers sys) !! id = Some job →
  (∃ report, (tick env tr sys id now).1 = Some (Ok (), report)) ∧
  timers (tick env tr sys id now).2 = timers sys ∧
  (findTrainingDataFiles env tr = Ok [] →
     tick env tr sys id now = (Some (Ok (), Skipped), sys)) ∧
  (∀ e, findTrainingDataFiles env tr = Throw e →
     (tick env tr sys id now).1 = Some (Ok (), Failed e)) ∧
  (∀ files e, findTrainingDataFiles env tr = Ok files → files ≠ [] →
     mergeTrainingData env files = Throw e →
     (tick env tr sys id now).1 = Some (Ok (), Failed e)) ∧
  (∀ files mergedData e, findTrainingDataFiles env tr = Ok files → files ≠ [] →
     mergeTrainingData env files = Ok mergedData →
     (trainModel tr (manager sys) (job_modelType job) mergedData ∅ now).1 = Throw e →
     (tick env tr sys id now).1 = Some (Ok (), Failed e)) ∧
  (∀ moments,
     Forall (λ r, ∃ report, r = Some (Ok (), report)) (ticks tr sys id moments).1 ∧
     List.length (ticks tr sys id moments).1 = List.length moments ∧
     timers (ticks tr sys id moments).2 = timers sys).
Proof.
  intros E.
  split; [by apply (tick_fires env tr sys id now job)|].
  split; [apply tick_timers|].
  unfold tick. rewrite E.
  split; [|split; [|split; [|split]]].
  - intros F. rewrite firing_skips by done. by destruct sys.
  - intros e F. unfold firing, firing_body. by rewrite F.
  - intros files e F Hne M. unfold firing, firing_body. rewrite F.
    rewrite bool_decide_false by (by destruct files). by rewrite M.
  - intros files mergedData e F Hne M T. unfold firing, firing_body. rewrite F.
    rewrite bool_decide_false by (by destruct files). rewrite M.
    destruct (trainModel tr (manager sys) (job_modelType job) mergedData ∅ now)
      as [[r|e'] mgr']; cbn in *; congruence.
  - intros moments. by apply (ticks_all_fire tr id job).
Qed.

Lemma firing_isolated_witness :
  let sys := {| manager := ModelManager.new;
                timers := (schedulePeriodicTraining {| active := ∅; next_id := 0 |}
                             "all" 100 0).2 |} in
  let quiet := Sample.world Sample.bare_disk in
  let broken := Sample.world
    {| Sample.present := ["data/a.json"]; Sample.listing := ["a.json"];
       Sample.contents := []; Sample.documents := [] |} in
  tick quiet Sample.trainer sys 0 100 = (Some (Ok (), Skipped), sys) ∧
  (tick broken Sample.trainer sys 0 100).1
    = Some (Ok (), Failed "ENOENT: data/a.json") ∧
  timers (tick broken Sample.trainer sys 0 100).2 = timers sys ∧
  List.length (ticks Sample.trainer sys 0 [(broken, 100); (quiet, 200)]).1 = 2%nat ∧
  timers (ticks Sample.trainer sys 0 [(broken, 100); (quiet, 200)]).2 = timers sys.
Proof.
  intros sys quiet broken.
  destruct (firing_isolated quiet Sample.trainer sys 0 100
              {| job_modelType := "all"; job_interval := 100 |}
              ltac:(vm_compute; reflexivity))
    as (_ & _ & Hskip & _).
  destruct (firing_isolated broken Sample.trainer sys 0 100
              {| job_modelType := "all"; job_interval := 100 |}
              ltac:(vm_compute; reflexivity))
    as (_ & Htimers & _ & _ & Hmerge & _ & Hrun).
  split; [apply Hskip; reflexivity|].
  split; [apply (Hmerge ["data/a.json"]);
          [vm_compute; reflexivity|discriminate|vm_compute; reflexivity]|].
  split; [exact Htimers|].
  destruct (Hrun [(broken, 100); (quiet, 200)]) as (_ & L & T).
  split; [exact L|exact T].
Defined.

(** Two quiet firings change nothing; a firing that fails (a listed file
    cannot be read) is followed by one that trains. *)
Example ticks_scenarios :
  let sys := {| manager := ModelManager.new;
                timers := (schedulePeriodicTraining {| active := ∅; next_id := 0 |}
                             "all" 100 0).2 |} in
  let quiet := Sample.world Sample.bare_disk in
  let broken := Sample.world
    {| Sample.present := ["data/a.json"]; Sample.listing := ["a.json"];
       Sample.contents := []; Sample.documents := [] |} in
  let good := Sample.world Sample.disk in
  ticks Sample.trainer sys 0 [(quiet, 100); (quiet, 200)]
    = ([Some (Ok (), Skipped); Some (Ok (), Skipped)], sys) ∧
  (ticks Sample.trainer sys 0 [(broken, 100); (good, 200)]).1
    = [Some (Ok (), Failed "ENOENT: data/a.json"); Some (Ok (), Finished)] ∧
  (tick good Sample.trainer
     {| manager := manager sys; timers := (cancelPeriodicTraining (timers sys) 0).2 |}
     0 100).1 = None.
Proof. vm_compute. repeat split; reflexivity. Qed.

End periodic_training.

(** * Further properties *)

(** ** The rate limiter *)

Section rate_limiter_more.
Import RateLimiter.

Implicit Types (requests : gmap string (list Z)) (ip k : string) (now : Z).

Lemma filter_all {A} (P : A → Prop) `{!∀ x, Decision (P x)} (l : list A) :
  Forall P l → filter P l = l.
Proof.
  induction 1 as [|x l Hx _ IH]; [done|]. by rewrite filter_cons_True, IH.
Qed.

Lemma filter_none {A} (P : A → Prop) `{!∀ x, Decision (P x)} (l : list A) :
  Forall (λ x, ¬ P x) l → filter P l = [].
Proof.
  induction 1 as [|x l Hx _ IH]; [done|]. by rewrite filter_cons_False.
Qed.

Lemma run_cons (o : Options) requests ip now (rest : list (string * Z)) :
  (run o requests ((ip, now) :: rest)).1
  = (ip, (rateLimiter o requests ip now).1)
      :: (run o (rateLimiter o requests ip now).2 rest).1 ∧
  (run o requests ((ip, now) :: rest)).2
  = (run o (rateLimiter o requests ip now).2 rest).2.
Proof.
  cbn [run]. destruct (rateLimiter o requests ip now) as [r q]. cbn [fst snd].
  destruct (run o q rest) as [rs f]. by split.
Qed.

(** Requests of one client that all fall inside one window: from a list of
    [k] timestamps of that window, the next [max - k] requests pass and all
    the others are refused. *)
Lemma burst_from (o : Options) ip (a : Z) (times : list Z) :
  ∀ requests,
    (∀ t, t ∈ stored requests ip ++ times → a ≤ t < a + windowMs o) →
    (run o requests ((λ t, (ip, t)) <$> times)).1.*2
    = replicate (List.length times `min`
                   (Z.to_nat (max o) - List.length (stored requests ip))) Next
      ++ replicate (List.length times
                      - (Z.to_nat (max o) - List.length (stored requests ip))) Status429.
Proof.
  induction times as [|now rest IH]; intros requests Hin; [done|].
  rewrite fmap_cons. rewrite (proj1 (run_cons o requests ip now _)).
  rewrite fmap_cons. cbn [snd].
  assert (userRequests o requests ip now = stored requests ip) as EU.
  { unfold userRequests. apply filter_all, Forall_forall.
    intros t Ht.
    assert (a ≤ t < a + windowMs o) by (apply Hin, elem_of_app; by left).
    assert (a ≤ now < a + windowMs o)
      by (apply Hin, elem_of_app; right; apply elem_of_cons; by left).
    lia. }
  destruct (decide (max o ≤ Z.of_nat (List.length (userRequests o requests ip now)))) as [H|H].
  - destruct (rateLimiter_reject o requests ip now H) as [Er Es].
    rewrite Er, IH.
    + rewrite Es. rewrite EU in H.
      replace (Z.to_nat (max o) - List.length (stored requests ip))%nat with 0%nat by lia.
      by rewrite !Nat.min_0_r, !Nat.sub_0_r.
    + intros t Ht. apply Hin. rewrite Es in Ht.
      apply elem_of_app in Ht as [Ht|Ht]; apply elem_of_app; [by left|right].
      apply elem_of_cons. by right.
  - assert (Z.of_nat (List.length (userRequests o requests ip now)) < max o) as H1 by lia.
    destruct (rateLimiter_next o requests ip now H1) as (Er & Es & _).
    rewrite Er, IH.
    + rewrite Es, EU, length_app. cbn [length]. rewrite EU in H1.
      destruct (Z.to_nat (max o) - List.length (stored requests ip))%nat
        as [|d] eqn:Ed; [lia|].
      replace (Z.to_nat (max o) - (List.length (stored requests ip) + 1))%nat
        with d by lia.
      done.
    + intros t Ht. apply Hin. rewrite Es, EU in Ht.
      apply elem_of_app in Ht as [Ht|Ht].
      * apply elem_of_app in Ht as [Ht|Ht]; apply elem_of_app; [by left|right].
        apply elem_of_cons. left. by apply list_elem_of_singleton in Ht.
      * apply elem_of_app. right. apply elem_of_cons. by right.
Qed.

(** X1: a burst.  Starting from an empty limiter, when all the requests of
    a client fall inside one window, exactly the first [max] of them pass
    and every later one is answered 429. *)
Theorem rateLimiter_burst (o : Options) ip (a : Z) (times : list Z) :
  (∀ t, t ∈ times → a ≤ t < a + windowMs o) →
  (run o ∅ ((λ t, (ip, t)) <$> times)).1.*2
  = replicate (List.length times `min` Z.to_nat (max o)) Next
    ++ replicate (List.length times - Z.to_nat (max o)) Status429.
Proof.
  intros Hin.
  pose proof (burst_from o ip a times ∅) as B.
  unfold stored in B. rewrite lookup_empty in B. cbn in B.
  rewrite Nat.sub_0_r in B. apply B. intros t Ht. by apply Hin.
Qed.

Lemma rateLimiter_burst_witness :
  (run {| windowMs := 1000; max := 3 |} ∅
     ((λ t, ("10.0.0.1", t)) <$> [5; 5; 70; 300; 999])).1.*2
  = [Next; Next; Next; Status429; Status429].
Proof.
  apply (rateLimiter_burst {| windowMs := 1000; max := 3 |} "10.0.0.1" 5).
  intros t Ht. cbn.
  repeat (apply elem_of_cons in Ht as [->|Ht]; [lia|]).
  by apply elem_of_nil in Ht.
Defined.

(** X2: recovery.  Once every recorded timestamp of a client is at least
    [windowMs] old, its next request passes (for a positive [max]) and the
    old timestamps are dropped: the list holds the new one only. *)
Theorem rateLimiter_recovers (o : Options) requests ip now :
  0 < max o →
  (∀ t, t ∈ stored requests ip → windowMs o ≤ now - t) →
  (rateLimiter o requests ip now).1 = Next ∧
  stored (rateLimiter o requests ip now).2 ip = [now].
Proof.
  intros Hmax Hold.
  assert (userRequests o requests ip now = []) as EU.
  { unfold userRequests. apply filter_none, Forall_forall.
    intros t Ht. specialize (Hold t Ht). lia. }
  destruct (rateLimiter_next o requests ip now) as (Er & Es & _).
  { rewrite EU. cbn. lia. }
  split; [exact Er|]. by rewrite Es, EU.
Qed.

Lemma rateLimiter_recovers_witness :
  let o := {| windowMs := 1000; max := 2 |} in
  let requests := (run o ∅ [("c", 0); ("c", 10); ("c", 20)]).2 in
  stored requests "c" = [0; 10] ∧
  (rateLimiter o requests "c" 999).1 = Status429 ∧
  (rateLimiter o requests "c" 1010).1 = Next ∧
  stored (rateLimiter o requests "c" 1010).2 "c" = [1010].
Proof.
  intros o requests.
  assert (stored requests "c" = [0; 10]) as E by (vm_compute; reflexivity).
  split; [exact E|]. split; [vm_compute; reflexivity|].
  apply (rateLimiter_recovers o requests "c" 1010); [cbn; lia|].
  intros t Ht. rewrite E in Ht. cbn.
  repeat (apply elem_of_cons in Ht as [->|Ht]; [lia|]).
  by apply elem_of_nil in Ht.
Defined.

Lemma rateLimiter_dom (o : Options) requests ip now :
  dom (rateLimiter o requests ip now).2 = dom requests ∪ {[ip]}.
Proof.
  apply set_eq. intros x. rewrite elem_of_union, elem_of_singleton.
  unfold rateLimiter. cbv zeta.
  destruct (requests !! ip) eqn:E.
  - assert (ip ∈ dom requests) as Hip by (apply elem_of_dom; eauto).
    case_bool_decide as Hb; cbn;
      rewrite ?dom_insert_L, ?elem_of_union, ?elem_of_singleton;
      clear Hb; split; intros Hx; try tauto;
      destruct Hx as [Hx|Hx]; subst; tauto.
  - case_bool_decide as Hb; cbn;
      rewrite ?dom_insert_L, ?elem_of_union, ?elem_of_singleton;
      clear Hb; split; intros Hx; tauto.
Qed.

(** X3: the limiter never forgets a client.  After any sequence of
    requests the map holds an entry for every client it held before and for
    every client that asked, refused or not. *)
Theorem rateLimiter_keeps_every_client (o : Options) (trace : list (string * Z)) :
  ∀ requests,
    dom (run o requests trace).2 = dom requests ∪ list_to_set trace.*1.
Proof.
  induction trace as [|[ip now] rest IH]; intros requests.
  - cbn. by rewrite union_empty_r_L.
  - rewrite (proj2 (run_cons o requests ip now rest)), IH, rateLimiter_dom.
    rewrite fmap_cons, list_to_set_cons. cbn [fst].
    by rewrite (assoc_L (∪)).
Qed.

End rate_limiter_more.

(** ** Model handles *)

Section handles_more.
Import Model.

Implicit Types (env : Env) (h : Handle).

Lemma train_same h (data : list JSON) (options : gmap string JSON) (now : Z) :
  (train h data options now).2 = h.
Proof. unfold train. by destruct (kind h). Qed.

Lemma evaluate_same h (data : list JSON) (now : Z) :
  (evaluate h data now).2 = h.
Proof. unfold evaluate. by destruct (kind h). Qed.

Lemma save_same env h (savePath : string) : (save env h savePath).2 = h.
Proof.
  unfold save. destruct (if existsSync env _ then _ else _); [|done].
  by destruct (writeFileSync env _).
Qed.

Lemma load_coherent env h : coherent (load env h).2.
Proof.
  unfold coherent, load, init_backend, modelPath.
  destruct (existsSync env (path (config h))); [|done].
  destruct (kind h) eqn:K.
  - destruct (LLModel_new env (config h)) as [i|]; [|done].
    destruct (LLModel_load env i); [|done]. cbn. intros _. split; [eauto|].
    rewrite K. done.
  - destruct (pipeline env (path (config h))) as [i|]; [|done].
    cbn. intros _. split; [eauto|]. rewrite K. done.
  - destruct (InferenceSession_create _ _ _) as [i|]; [|done].
    cbn. intros _. split; [eauto|]. done.
Qed.

Lemma unload_coherent h : coherent h → coherent (unload h).2.
Proof.
  intros C. unfold unload.
  destruct (isLoaded h && bool_decide (is_Some (backend h))) eqn:E; [|done].
  by destruct (kind h).
Qed.

Lemma generate_coherent env h (p : string) (options : gmap string JSON) :
  coherent h → coherent (generate env h p options).2.
Proof.
  intros C. unfold generate. destruct (isLoaded h); [done|].
  pose proof (load_coherent env h) as L.
  by destruct (load env h) as [[b|e] h1].
Qed.

Lemma call_coherent (c : Call) h : coherent h → coherent (call c h).
Proof.
  intros C. destruct c; cbn [call].
  - apply load_coherent.
  - by apply generate_coherent.
  - by rewrite train_same.
  - by rewrite evaluate_same.
  - by rewrite save_same.
  - by apply unload_coherent.
Qed.

Lemma calls_coherent (cs : list Call) h : coherent h → coherent (calls cs h).
Proof.
  unfold calls. revert h.
  induction cs as [|c1 cs IH]; intros h C; [done|].
  cbn [foldl]. apply IH. by apply call_coherent.
Qed.

(** The two turns of LlamaModel's [load()], run with nothing in between,
    are [load()]. *)
Lemma load_two_turns env h :
  kind h = LlamaModel →
  load env h
  = match load_until_await env h with
    | (Ok m, h1) => load_after_await env m h1
    | (Throw e, h1) => (Throw e, h1)
    end.
Proof.
  intros K. unfold load, init_backend, load_until_await, load_after_await.
  rewrite K. destruct (existsSync env (modelPath h)); [|done].
  by destruct (LLModel_new env (config h)).
Qed.

(** X4: as long as the calls made on a handle since its construction do not
    overlap (each has settled before the next is made), in whatever worlds
    they run, a handle whose [isLoaded] is true holds a backend reference
    (and, for GptjModel, its tokenizer).  Overlapping calls can break this:
    [load()] of LlamaModel, composed of its two turns, assigns [this.model]
    before its [await] and sets [isLoaded] after it, so an [unload()] that
    runs while the reload of a loaded LlamaModel is pending leaves the
    handle with [isLoaded] true and no backend. *)
Theorem handle_coherent_between_calls (cs : list Call) (k : Kind)
    (c : ModelConfig) env h (m : Instance) (u : unit) :
  coherent (calls cs (Model.new k c)) ∧
  (kind h = LlamaModel → isLoaded h = true →
   existsSync env (modelPath h) = true →
   LLModel_new env (config h) = Ok m → LLModel_load env m = Ok u →
   let pending := (load_until_await env h).2 in
   let unloaded := (unload pending).2 in
   let settled := (load_after_await env m unloaded).2 in
   (load_until_await env h).1 = Ok m ∧
   load env h = load_after_await env m pending ∧
   isLoaded settled = true ∧ backend settled = None ∧ ¬ coherent settled).
Proof.
  split.
  - assert (coherent (Model.new k c)) as C by (intros H; discriminate H).
    revert C. generalize (Model.new k c). unfold calls.
    induction cs as [|c1 cs IH]; intros h0 C; [exact C|].
    cbn [foldl]. apply IH. destruct c1; cbn [call].
    + apply load_coherent.
    + by apply generate_coherent.
    + by rewrite train_same.
    + by rewrite evaluate_same.
    + by rewrite save_same.
    + by apply unload_coherent.
  - intros K L E N Ld. cbn zeta.
    rewrite (load_two_turns env h K).
    unfold load_until_await, load_after_await, unload, coherent.
    rewrite E, N, Ld. destruct h as [k0 c0 l b t]. cbn in *. subst k0 l.
    cbn. split; [done|]. split; [done|]. split; [done|]. split; [done|].
    intros C. destruct (C eq_refl) as [[x Hx] _]. discriminate Hx.
Qed.

Lemma handle_coherent_between_calls_witness :
  let env := Sample.world Sample.disk in
  let h := calls [CallLoad env]
             (Model.new LlamaModel
                {| path := "./models/llama2"; contextSize := 2048;
                   batchSize := 512; threads := 4 |}) in
  coherent h ∧ isLoaded h = true ∧
  let settled :=
    (load_after_await env 1%nat (unload (load_until_await env h).2).2).2 in
  isLoaded settled = true ∧ backend settled = None.
Proof.
  intros env h.
  destruct (handle_coherent_between_calls [CallLoad env] LlamaModel
              {| path := "./models/llama2"; contextSize := 2048;
                 batchSize := 512; threads := 4 |} env h 1%nat tt)
    as [C Hoverlap].
  split; [exact C|]. split; [reflexivity|].
  destruct (Hoverlap ltac:(reflexivity) ltac:(reflexivity) ltac:(reflexivity)
              ltac:(reflexivity) ltac:(reflexivity)) as (_ & _ & L & B & _).
  split; [exact L|exact B].
Defined.

(** X6: [unload()] never raises and returns [true]; calling it twice is
    the same as calling it once; and on a handle that holds a backend
    whenever it says it is loaded, it leaves the handle not loaded, with
    the backend released if it was loaded. *)
Theorem unload_idempotent h :
  (unload h).1 = Ok true ∧
  unload (unload h).2 = (Ok true, (unload h).2) ∧
  (coherent h →
     isLoaded (unload h).2 = false ∧
     (isLoaded h = true → backend (unload h).2 = None)).
Proof.
  unfold unload, coherent.
  destruct (isLoaded h) eqn:L; cbn [andb].
  - destruct (backend h) as [i|] eqn:B.
    + rewrite bool_decide_true by eauto.
      split; [done|]. split; [by destruct (kind h)|].
      intros _. by destruct (kind h).
    + rewrite bool_decide_false by (by intros [? ?]). cbn. rewrite L, B.
      rewrite bool_decide_false by (by intros [? ?]). cbn.
      split; [done|]. split; [done|]. intros C.
      destruct (C eq_refl) as [[? ?] _]. done.
  - cbn. rewrite L. cbn. split; [done|]. split; [done|]. intros _. by split.
Qed.

Lemma unload_idempotent_witness :
  let h := calls [CallLoad (Sample.world Sample.disk)]
             (Model.new MistralModel Sample.mistral_config) in
  isLoaded h = true ∧ backend h = Some 2%nat ∧
  isLoaded (unload h).2 = false ∧ backend (unload h).2 = None ∧
  unload (unload h).2 = (Ok true, (unload h).2).
Proof.
  intros h.
  destruct (unload_idempotent h) as (_ & Htwice & Hco).
  destruct Hco as [Hl Hb].
  { intros _. split; [by exists 2%nat|]. intros K. discriminate K. }
  split; [reflexivity|]. split; [reflexivity|]. split; [exact Hl|].
  split; [exact (Hb eq_refl)|exact Htwice].
Defined.

(** X7: round trip.  On a handle that is not loaded and holds nothing, a
    successful [load()] followed by [unload()] gives the handle back as it
    was. *)
Theorem load_then_unload env h (b : bool) :
  isLoaded h = false → backend h = None → tokenizer h = false →
  (load env h).1 = Ok b →
  unload (load env h).2 = (Ok true, h).
Proof.
  destruct h as [k c l bk tk]. cbn. intros -> -> ->.
  unfold load, init_backend, modelPath. cbn.
  destruct (existsSync env (path c)); [|done].
  destruct k; cbn.
  - destruct (LLModel_new env c) as [i|]; [|done].
    by destruct (LLModel_load env i).
  - by destruct (pipeline env (path c)).
  - by destruct (InferenceSession_create _ _ _).
Qed.

Lemma load_then_unload_witness :
  let h := Model.new LlamaModel
             {| path := "./models/llama2"; contextSize := 2048;
                batchSize := 512; threads := 4 |} in
  isLoaded (load (Sample.world Sample.disk) h).2 = true ∧
  unload (load (Sample.world Sample.disk) h).2 = (Ok true, h).
Proof.
  intros h. split; [reflexivity|].
  apply (load_then_unload (Sample.world Sample.disk) h true); reflexivity.
Defined.

(** X8: a reload that fails strands the backend.  When [load()] is called
    on a loaded handle and throws, the handle is marked not loaded but still
    holds a backend reference, and [unload()] then returns [true] without
    releasing it. *)
Theorem failed_reload_keeps_backend env h (e : string) :
  isLoaded h = true → is_Some (backend h) →
  (load env h).1 = Throw e →
  isLoaded (load env h).2 = false ∧
  is_Some (backend (load env h).2) ∧
  unload (load env h).2 = (Ok true, (load env h).2).
Proof.
  intros _ B E.
  assert (isLoaded (load env h).2 = false ∧ is_Some (backend (load env h).2)) as [L B'].
  { revert E. unfold load, init_backend, modelPath.
    destruct (existsSync env (path (config h))); [|done].
    destruct (kind h).
    - destruct (LLModel_new env (config h)) as [i|]; [|done].
      destruct (LLModel_load env i); [done|]. cbn. eauto.
    - by destruct (pipeline env (path (config h))).
    - by destruct (InferenceSession_create _ _ _). }
  split; [done|]. split; [done|]. unfold unload. by rewrite L.
Qed.

Lemma failed_reload_keeps_backend_witness :
  let h := calls [CallLoad (Sample.world Sample.disk)]
             (Model.new MistralModel Sample.mistral_config) in
  let h' := (load (Sample.world Sample.bare_disk) h).2 in
  isLoaded h' = false ∧ backend h' = Some 2%nat ∧ unload h' = (Ok true, h').
Proof.
  intros h h'.
  destruct (failed_reload_keeps_backend (Sample.world Sample.bare_disk) h
              "Model path tidak ditemukan: ./models/mistral7b"
              ltac:(reflexivity) ltac:(by exists 2%nat) ltac:(reflexivity))
    as (L & _ & U).
  split; [exact L|]. split; [reflexivity|exact U].
Defined.

End handles_more.

Section generation.
Import Model.

Implicit Types (env : Env) (h : Handle).

Lemma slice_app (p c : string) : JS.slice (String.length p) (p +:+ c) = c.
Proof. induction p as [|a p IH]; [done|]. exact IH. Qed.

(** X9: a loaded MistralModel returns the continuation only: when the
    pipeline answers with the prompt followed by a continuation, [generate]
    returns the continuation, without the prompt, and leaves the handle as
    it is; an error of the pipeline is raised again, with the handle as it
    is. *)
Theorem mistral_returns_continuation env h (p c : string)
    (options : gmap string JSON) (i : Instance) :
  kind h = MistralModel → isLoaded h = true → backend h = Some i →
  (pipeline_call env i p (mergedOptions MistralModel options) = Ok (p +:+ c) →
   generate env h p options = (Ok c, h)) ∧
  (∀ e, pipeline_call env i p (mergedOptions MistralModel options) = Throw e →
   generate env h p options = (Throw e, h)).
Proof.
  intros K L B. split.
  - intros E. unfold generate, run_backend. by rewrite L, K, B, E, slice_app.
  - intros e E. unfold generate, run_backend. by rewrite L, K, B, E.
Qed.

Lemma mistral_returns_continuation_witness :
  let env := Sample.world Sample.disk in
  let h := (load env (Model.new MistralModel Sample.mistral_config)).2 in
  generate env h "Apa kabar" ∅ = (Ok " and so on", h).
Proof.
  intros env h.
  destruct (mistral_returns_continuation env h "Apa kabar" " and so on"
              ∅ 2%nat ltac:(reflexivity) ltac:(reflexivity) ltac:(reflexivity))
    as (Hc & _).
  apply Hc. reflexivity.
Defined.

(** X10: the options that reach the backend are the caller's options over
    the defaults of the model class: a key the caller gives keeps the
    caller's value, whatever it is; any other key has the default, if there
    is one.  MistralModel's defaults are spelled [max_new_tokens], [top_p],
    ...: a caller's [maxTokens] replaces the default of LlamaModel and
    GptjModel, but for MistralModel it is passed beside an unchanged
    [max_new_tokens] of 512. *)
Theorem generate_options_merge (k : Kind) (options : gmap string JSON)
    (key : string) (v : JSON) :
  (options !! key = Some v → mergedOptions k options !! key = Some v) ∧
  (options !! key = None →
     mergedOptions k options !! key = defaultOptions k !! key) ∧
  (options !! "maxTokens" = Some v →
     options !! "max_new_tokens" = None →
     mergedOptions LlamaModel options !! "maxTokens" = Some v ∧
     mergedOptions GptjModel options !! "maxTokens" = Some v ∧
     mergedOptions MistralModel options !! "maxTokens" = Some v ∧
     mergedOptions MistralModel options !! "max_new_tokens" = Some (JNum 512)).
Proof.
  unfold mergedOptions.
  assert (∀ k' key' v', options !! key' = Some v' →
            (options ∪ defaultOptions k') !! key' = Some v') as Hl.
  { intros k' key' v' E. by apply lookup_union_Some_l. }
  assert (∀ k' key', options !! key' = None →
            (options ∪ defaultOptions k') !! key' = defaultOptions k' !! key') as Hr.
  { intros k' key' E. by apply lookup_union_r. }
  split; [apply Hl|]. split; [apply Hr|].
  intros E1 E2. repeat split; try by apply Hl.
  by rewrite Hr.
Qed.

Lemma generate_options_merge_witness :
  let options : gmap string JSON :=
    <["maxTokens" := JNum 10]> (<["temperature" := JNum 0]> ∅) in
  mergedOptions LlamaModel options !! "maxTokens" = Some (JNum 10) ∧
  mergedOptions LlamaModel options !! "temperature" = Some (JNum 0) ∧
  mergedOptions LlamaModel options !! "topK" = Some (JNum 40) ∧
  mergedOptions MistralModel options !! "max_new_tokens" = Some (JNum 512).
Proof.
  intros options.
  destruct (generate_options_merge LlamaModel options "temperature" (JNum 0))
    as (Hgiven & _ & _).
  destruct (generate_options_merge LlamaModel options "topK" (JNum 0))
    as (_ & Hdefault & _).
  destruct (generate_options_merge LlamaModel options "maxTokens" (JNum 10))
    as (_ & _ & Hspell).
  destruct (Hspell ltac:(reflexivity) ltac:(reflexivity)) as (Hl & _ & _ & Hm).
  split; [exact Hl|]. split; [apply Hgiven; reflexivity|].
  split; [|exact Hm].
  rewrite Hdefault by reflexivity. reflexivity.
Defined.

End generation.

(** ** The registry *)

Section registry_more.
Import Model ModelManager.

Implicit Types (m : ModelManager.t) (env : Env).

Lemma lower_ascii_idempotent (c : ascii) :
  JS.lower_ascii (JS.lower_ascii c) = JS.lower_ascii c.
Proof. destruct c as [[] [] [] [] [] [] [] []]; reflexivity. Qed.

Lemma toLowerCase_idempotent (s : string) :
  JS.toLowerCase (JS.toLowerCase s) = JS.toLowerCase s.
Proof.
  induction s as [|c s IH]; [done|].
  cbn. by rewrite lower_ascii_idempotent, IH.
Qed.

(** X11: a successful [init()] puts three new handles, none of them
    loaded, under [llama], [mistral] and [gptj], whatever was registered
    under these names before (a loaded handle is dropped, not unloaded),
    leaves every other entry alone and marks the registry initialized. *)
Theorem init_replaces_handles (cfg : Config) m (b : bool) :
  (init cfg m).1 = Ok b →
  b = true ∧ initialized (init cfg m).2 = true ∧
  ∃ cl cm cg,
    llama cfg = Some cl ∧ mistral cfg = Some cm ∧ gptj cfg = Some cg ∧
    models (init cfg m).2 !! "llama" = Some (Model.new LlamaModel cl) ∧
    models (init cfg m).2 !! "mistral" = Some (Model.new MistralModel cm) ∧
    models (init cfg m).2 !! "gptj" = Some (Model.new GptjModel cg) ∧
    ∀ name, name ≠ "llama" → name ≠ "mistral" → name ≠ "gptj" →
      models (init cfg m).2 !! name = models m !! name.
Proof.
  unfold init.
  destruct (llama cfg) as [cl|]; [|done].
  destruct (mistral cfg) as [cm|]; [|done].
  destruct (gptj cfg) as [cg|]; [|done].
  cbn. intros [= <-]. split; [done|]. split; [done|].
  exists cl, cm, cg. repeat split.
  - rewrite lookup_insert_ne by done. rewrite lookup_insert_ne by done.
    apply lookup_insert_eq.
  - rewrite lookup_insert_ne by done. apply lookup_insert_eq.
  - apply lookup_insert_eq.
  - intros name H1 H2 H3. by rewrite !lookup_insert_ne.
Qed.

Lemma init_replaces_handles_witness :
  let env := Sample.world Sample.disk in
  let m := (loadAllModels env (init Sample.config ModelManager.new).2 0).2 in
  isLoaded <$> models m !! "llama" = Some true ∧
  isLoaded <$> models (init Sample.config m).2 !! "llama" = Some false ∧
  initialized (init Sample.config m).2 = true.
Proof.
  intros env m.
  destruct (init_replaces_handles Sample.config m true ltac:(reflexivity))
    as (_ & Hi & cl & cm & cg & _ & _ & _ & Hl & _).
  split; [vm_compute; reflexivity|]. split; [by rewrite Hl|exact Hi].
Defined.

(** X12: [init()] fails only when an entry of [config.models] is missing.
    The registry is then marked not initialized, also when it was
    initialized before, and every operation on it raises the
    not-initialized error. *)
Theorem init_failure_closes_registry (cfg : Config) m (e : string) env
    (name p : string) (options : gmap string JSON) (now : Z) :
  (init cfg m).1 = Throw e →
  (llama cfg = None ∨ mistral cfg = None ∨ gptj cfg = None) ∧
  e = undefinedConfig ∧
  initialized (init cfg m).2 = false ∧
  getModel (init cfg m).2 name = Throw notInitialized ∧
  getAllModels (init cfg m).2 = Throw notInitialized ∧
  (generateFromAllModels env (init cfg m).2 p options now).1 = Throw notInitialized ∧
  (loadAllModels env (init cfg m).2 now).1 = Throw notInitialized ∧
  (unloadAllModels (init cfg m).2 now).1 = Throw notInitialized.
Proof.
  unfold init, getModel, getAllModels, generateFromAllModels, loadAllModels,
    unloadAllModels.
  destruct (llama cfg) as [cl|]; [|cbn; intros [= <-]; tauto].
  destruct (mistral cfg) as [cm|]; [|cbn; intros [= <-]; tauto].
  destruct (gptj cfg) as [cg|]; [done|cbn; intros [= <-]; tauto].
Qed.

Lemma init_failure_closes_registry_witness :
  let cfg := {| llama := ModelManager.llama Sample.config;
                mistral := None;
                gptj := ModelManager.gptj Sample.config |} in
  let m := (init Sample.config ModelManager.new).2 in
  initialized m = true ∧
  initialized (init cfg m).2 = false ∧
  getModel (init cfg m).2 "llama" = Throw notInitialized.
Proof.
  intros cfg m.
  destruct (init_failure_closes_registry cfg m undefinedConfig
              (Sample.world Sample.disk) "llama" "halo" ∅ 0 ltac:(reflexivity))
    as (_ & _ & Hi & Hg & _).
  split; [reflexivity|]. split; [exact Hi|exact Hg].
Defined.

(** X13: on an initialized registry [getModel] returns a handle exactly
    when the lower-cased name is a key under which that handle is
    registered; names that differ only by case get the same answer; and the
    key that was looked up is always in lower case, so a handle registered
    only under a key with a capital letter is never returned. *)
Theorem getModel_registered_names m (name : string) (h : Handle) :
  initialized m = true →
  (getModel m name = Ok (JS.Own h) ↔ models m !! JS.toLowerCase name = Some h) ∧
  (∀ n2 v, JS.toLowerCase n2 = JS.toLowerCase name →
     getModel m name = Ok v → getModel m n2 = Ok v) ∧
  (getModel m name = Ok (JS.Own h) →
     ∃ key, models m !! key = Some h ∧ JS.toLowerCase key = key).
Proof.
  intros Hi.
  assert (getModel m name = Ok (JS.Own h) ↔ models m !! JS.toLowerCase name = Some h)
    as Hiff.
  { unfold getModel, JS.get. rewrite Hi. cbn.
    destruct (models m !! JS.toLowerCase name) as [h'|].
    - split; intros [= ->]; done.
    - case_bool_decide; split; intros; done. }
  split; [exact Hiff|]. split.
  - intros n2 v E. unfold getModel. rewrite Hi. cbn. rewrite E.
    by destruct (JS.get (models m) (JS.toLowerCase name)).
  - intros G. exists (JS.toLowerCase name). split; [by apply Hiff|].
    apply toLowerCase_idempotent.
Qed.

Lemma getModel_registered_names_witness :
  let m := (init Sample.config ModelManager.new).2 in
  let h := Model.new MistralModel Sample.mistral_config in
  getModel m "Mistral" = Ok (JS.Own h) ∧ getModel m "MISTRAL" = Ok (JS.Own h).
Proof.
  intros m h.
  destruct (getModel_registered_names m "Mistral" h ltac:(reflexivity))
    as (Hiff & Hcase & _).
  assert (getModel m "Mistral" = Ok (JS.Own h)) as G
    by (apply Hiff; vm_compute; reflexivity).
  split; [exact G|]. apply (Hcase "MISTRAL" _ ltac:(reflexivity) G).
Defined.

End registry_more.

Section fan_out_more.
Import Model ModelManager.

Implicit Types (m : ModelManager.t) (env : Env).

Lemma loadAllModels_eq env m (now : Z) :
  initialized m = true →
  models m !! "__proto__" = None →
  loadAllModels env m now
  = (Ok {| status := "success";
           status_results := (λ h, entry (as_status (load env h)).1) <$> models m;
           status_timestamp := now |},
     {| models := (λ h, (as_status (load env h)).2) <$> models m;
        initialized := true |}).
Proof.
  intros Hi Hp. unfold loadAllModels. rewrite Hi. cbn [negb].
  rewrite (collect_any_order (λ h, as_status (load env h)) m _ (Permutation_refl _) Hp).
  by rewrite (after_any_order (λ h, as_status (load env h)) m _ (Permutation_refl _)).
Qed.

(** X14: on an initialized registry [loadAllModels] always resolves with
    status [success], also when every load failed; under each registered
    name [results] holds [success] or [ERROR: ] followed by the message of
    that handle's load error, and each handle is left in the state its own
    [load()] puts it in. *)
Theorem loadAllModels_outcome env m (now : Z) :
  initialized m = true →
  models m !! "__proto__" = None →
  ∃ out,
    (loadAllModels env m now).1 = Ok out ∧
    status out = "success" ∧ status_timestamp out = now ∧
    dom (status_results out) = dom (models m) ∧
    initialized (loadAllModels env m now).2 = true ∧
    ∀ name h, models m !! name = Some h →
      status_results out !! name
        = Some (match (load env h).1 with
                | Ok _ => "success"
                | Throw e => "ERROR: " +:+ e
                end) ∧
      models (loadAllModels env m now).2 !! name = Some (load env h).2.
Proof.
  intros Hi Hp. unfold loadAllModels. rewrite Hi. cbn.
  eexists. split; [reflexivity|]. cbn.
  rewrite (collect_any_order (λ h, as_status (load env h)) m _ (Permutation_refl _) Hp).
  rewrite (after_any_order (λ h, as_status (load env h)) m _ (Permutation_refl _)).
  split; [done|]. split; [done|]. split; [apply dom_fmap_L|]. split; [done|].
  intros name h Hh. rewrite !lookup_fmap, Hh. cbn.
  by destruct (load env h) as [[b|e] h'].
Qed.

Lemma loadAllModels_outcome_witness :
  let m := (init Sample.config ModelManager.new).2 in
  let r := loadAllModels (Sample.world Sample.bare_disk) m 7 in
  ∃ out, r.1 = Ok out ∧ status out = "success" ∧
    status_results out !! "llama"
      = Some "ERROR: Model path tidak ditemukan: ./models/llama2" ∧
    isLoaded <$> models r.2 !! "llama" = Some false.
Proof.
  intros m r.
  destruct (loadAllModels_outcome (Sample.world Sample.bare_disk) m 7
              ltac:(reflexivity) ltac:(vm_compute; reflexivity))
    as (out & E & S & _ & _ & _ & Hall).
  exists out. split; [exact E|]. split; [exact S|].
  destruct (Hall "llama" _ ltac:(vm_compute; reflexivity)) as [R M].
  split; [exact R|]. subst r. by rewrite M.
Defined.

(** X15: on an initialized registry [unloadAllModels] resolves with
    [success] under every registered name, and when every handle holds a
    backend whenever it says it is loaded, no handle is loaded
    afterwards. *)
Theorem unloadAllModels_outcome m (now : Z) :
  initialized m = true →
  models m !! "__proto__" = None →
  ∃ out,
    (unloadAllModels m now).1 = Ok out ∧
    status out = "success" ∧
    (∀ name h, models m !! name = Some h →
       status_results out !! name = Some "success" ∧
       models (unloadAllModels m now).2 !! name = Some (unload h).2) ∧
    ((∀ name h, models m !! name = Some h → coherent h) →
     ∀ name h', models (unloadAllModels m now).2 !! name = Some h' →
       isLoaded h' = false).
Proof.
  intros Hi Hp. unfold unloadAllModels. rewrite Hi. cbn.
  eexists. split; [reflexivity|]. cbn.
  rewrite (collect_any_order (λ h, as_status (unload h)) m _ (Permutation_refl _) Hp).
  rewrite (after_any_order (λ h, as_status (unload h)) m _ (Permutation_refl _)).
  split; [done|]. split.
  - intros name h Hh. rewrite !lookup_fmap, Hh. cbn.
    unfold unload. by destruct (isLoaded h && bool_decide (is_Some (backend h))).
  - intros Hco name h'. rewrite lookup_fmap.
    destruct (models m !! name) as [h|] eqn:Hh; [|done]. cbn. intros [= <-].
    specialize (Hco name h Hh). unfold coherent in Hco. unfold unload.
    destruct (isLoaded h) eqn:L; [|done].
    destruct (Hco eq_refl) as [[i Hb] _]. rewrite Hb.
    rewrite bool_decide_true by eauto. cbn. by destruct (kind h).
Qed.

Lemma unloadAllModels_outcome_witness :
  let m := (loadAllModels (Sample.world Sample.disk)
              (init Sample.config ModelManager.new).2 0).2 in
  isLoaded <$> models m !! "mistral" = Some true ∧
  isLoaded <$> models (unloadAllModels m 9).2 !! "mistral" = Some false.
Proof.
  intros m.
  destruct (unloadAllModels_outcome m 9 ltac:(reflexivity)
              ltac:(vm_compute; reflexivity))
    as (out & _ & _ & Hall & _).
  split; [vm_compute; reflexivity|].
  destruct (Hall "mistral" _ ltac:(vm_compute; reflexivity)) as [_ M].
  by rewrite M.
Defined.

Lemma collect_info_foldl (l : list (string * Handle)) :
  NoDup l.*1 →
  Forall (λ s, s.1 ≠ "__proto__") l →
  ∀ (acc : gmap string Info) (k : string),
    foldl (λ info nh, JS.set info nh.1 (getInfo nh.2)) acc l !! k
    = match (list_to_map l : gmap string _) !! k with
      | Some h => Some (getInfo h)
      | None => acc !! k
      end.
Proof.
  induction l as [|[name h] rest IH]; intros ND NP acc k; [done|].
  apply NoDup_cons in ND as [Hname ND]. apply Forall_cons in NP as [Hp NP].
  cbn [foldl fst snd]. rewrite IH by done.
  cbn [list_to_map foldr fst snd].
  destruct (decide (name = k)) as [->|Hk].
  - rewrite lookup_insert_eq.
    rewrite (not_elem_of_list_to_map_1 rest k Hname).
    unfold JS.set. rewrite bool_decide_false by done.
    by rewrite lookup_insert_eq.
  - rewrite (lookup_insert_ne _ name k) by done.
    destruct ((list_to_map rest : gmap string _) !! k); [done|].
    unfold JS.set. rewrite bool_decide_false by done.
    by rewrite lookup_insert_ne.
Qed.

Lemma getModelInfo_map m (now : Z) :
  initialized m = true →
  models m !! "__proto__" = None →
  getModelInfo m now = Ok (getInfo <$> models m, now).
Proof.
  intros Hi Hp. unfold getModelInfo, collect_info, JS.entries. rewrite Hi. cbn.
  do 2 f_equal. apply map_eq. intros k.
  rewrite collect_info_foldl.
  - rewrite list_to_map_to_list, lookup_fmap, lookup_empty.
    by destruct (models m !! k).
  - apply NoDup_fst_map_to_list.
  - apply Forall_forall. intros [name h] Hin Hn. cbn in Hn. subst name.
    apply elem_of_map_to_list in Hin. congruence.
Qed.

(** X16: [getModelInfo] after [loadAllModels] tells the same story as the
    result map: a registered name is reported with [isLoaded: true] exactly
    when [results] holds [success] under it. *)
Theorem getModelInfo_after_loadAllModels env m (now later : Z) :
  initialized m = true →
  models m !! "__proto__" = None →
  ∃ out info,
    (loadAllModels env m now).1 = Ok out ∧
    getModelInfo (loadAllModels env m now).2 later = Ok (info, later) ∧
    dom info = dom (models m) ∧
    ∀ name,
      info_isLoaded <$> info !! name = Some true
      ↔ status_results out !! name = Some "success".
Proof.
  intros Hi Hp. rewrite loadAllModels_eq by done. cbn [fst snd].
  rewrite getModelInfo_map; [|done|by cbn; rewrite lookup_fmap, Hp].
  eexists. eexists. split; [reflexivity|]. split; [reflexivity|].
  cbn [models status_results].
  split; [by rewrite !dom_fmap_L|].
  intros name. rewrite !lookup_fmap.
  destruct (models m !! name) as [h|]; [|done]. cbn [fmap option_fmap option_map].
  pose proof (load_ok env h) as Lok. pose proof (load_throw env h) as Lth.
  destruct (load env h) as [[b|e] h']; cbn in *.
  - destruct (Lok b eq_refl) as (_ & -> & _). done.
  - rewrite (Lth e eq_refl). split; intros [=].
Qed.

Lemma getModelInfo_after_loadAllModels_witness :
  let m := (init Sample.config ModelManager.new).2 in
  let r := loadAllModels (Sample.world Sample.disk) m 7 in
  ∃ out info, r.1 = Ok out ∧ getModelInfo r.2 8 = Ok (info, 8) ∧
    status_results out !! "llama" = Some "success" ∧
    info_isLoaded <$> info !! "llama" = Some true ∧
    status_results out !! "gptj" = Some "ERROR: Load model failed" ∧
    info_isLoaded <$> info !! "gptj" ≠ Some true.
Proof.
  intros m r.
  destruct (getModelInfo_after_loadAllModels (Sample.world Sample.disk) m 7 8
              ltac:(reflexivity) ltac:(vm_compute; reflexivity))
    as (out & info & E & G & _ & Hiff).
  exists out, info. split; [exact E|]. split; [exact G|].
  assert (status_results out !! "llama" = Some "success" ∧
          status_results out !! "gptj" = Some "ERROR: Load model failed") as [Hl Hg].
  { vm_compute in E. injection E as <-. split; vm_compute; reflexivity. }
  split; [exact Hl|]. split; [by apply Hiff|]. split; [exact Hg|].
  intros Hi. apply Hiff in Hi. rewrite Hg in Hi. discriminate Hi.
Defined.

End fan_out_more.

(** ** The trainer *)

Section trainer_data.
Import Trainer.

Implicit Types (env : Env) (data : list JSON).

(** The accumulator of the merge loop is only ever extended. *)
Lemma merge_loop_acc env (files : list string) :
  ∀ acc, merge_loop env acc files
         = match merge_loop env [] files with
           | Ok l => Ok (acc ++ l)
           | Throw e => Throw e
           end.
Proof.
  induction files as [|file rest IH]; intros acc.
  - cbn. by rewrite app_nil_r.
  - cbn [merge_loop]. destruct (loadTrainingData env file) as [d|e]; [|done].
    rewrite (IH (Array_concat acc d)), (IH (Array_concat [] d)).
    destruct (merge_loop env [] rest) as [l|e]; [|done].
    unfold Array_concat. destruct d; cbn; by rewrite <- ?app_assoc.
Qed.

(** A file whose document is [null] does not load: the read of
    [trainingData.length] throws. *)
Lemma loadTrainingData_null env (filePath fileContent : string) :
  existsSync env filePath = true →
  readFileSync env filePath = Ok fileContent →
  JSON_parse env fileContent = Ok JNull →
  loadTrainingData env filePath
  = Throw "Cannot read properties of null (reading 'length')".
Proof.
  intros E R P. unfold loadTrainingData. by rewrite E, R, P.
Qed.

(** What a file loads as is never [null]. *)
Lemma loadTrainingData_not_null env (filePath : string) :
  loadTrainingData env filePath ≠ Ok JNull.
Proof.
  unfold loadTrainingData.
  destruct (existsSync env filePath); [|done].
  destruct (readFileSync env filePath) as [fileContent|]; [|done].
  by destruct (JSON_parse env fileContent) as [[]|].
Qed.

(** X17: the merge is the concatenation of the merges: when two lists of
    files merge to [a] and [b], the two lists one after the other merge to
    [a ++ b], whatever the documents of the files that load hold (a
    document that is not an array counts as one element; a file whose
    document is [null] does not load, so such a list does not merge); the
    empty list merges to nothing. *)
Theorem mergeTrainingData_app env (files1 files2 : list string) (a b : list JSON) :
  mergeTrainingData env files1 = Ok a →
  mergeTrainingData env files2 = Ok b →
  mergeTrainingData env (files1 ++ files2) = Ok (a ++ b) ∧
  mergeTrainingData env [] = Ok [].
Proof.
  unfold mergeTrainingData. intros E1 E2. split; [|done].
  revert a E1. induction files1 as [|file rest IH]; intros a E1.
  - cbn in E1. injection E1 as <-. exact E2.
  - cbn [app merge_loop] in *.
    destruct (loadTrainingData env file) as [d|e]; [|done].
    rewrite merge_loop_acc in E1. rewrite merge_loop_acc.
    destruct (merge_loop env [] rest) as [l|e] eqn:El; [|done].
    injection E1 as <-. rewrite (IH l eq_refl). by rewrite app_assoc.
Qed.

Lemma mergeTrainingData_app_witness :
  mergeTrainingData (Sample.world Sample.disk) (["data/b.json"] ++ ["data/a.json"])
  = Ok ([ JObj [("input", JStr "q3"); ("output", JStr "a3")] ]
        ++ [ JObj [("input", JStr "q1"); ("output", JStr "a1")];
             JObj [("prompt", JStr "q2"); ("completion", JStr "a2")] ]).
Proof.
  apply (mergeTrainingData_app (Sample.world Sample.disk)); reflexivity.
Defined.

(** X18: the merge fails with the error of the first file that cannot be
    loaded (it is missing, cannot be read or parsed, or holds [null]): when
    the files before it load, the merge raises that file's error, whatever
    comes after it in the list. *)
Theorem mergeTrainingData_first_failure env (good rest : list string)
    (bad : string) (docs : list JSON) (e : string) :
  Forall2 (λ file d, loadTrainingData env file = Ok d) good docs →
  loadTrainingData env bad = Throw e →
  mergeTrainingData env (good ++ bad :: rest) = Throw e.
Proof.
  unfold mergeTrainingData. intros Hgood Hbad.
  generalize (@nil JSON).
  induction Hgood as [|file d good docs Hfile _ IH]; intros acc.
  - cbn. by rewrite Hbad.
  - cbn [app merge_loop]. rewrite Hfile. apply IH.
Qed.

Lemma mergeTrainingData_first_failure_witness :
  mergeTrainingData (Sample.world Sample.disk)
    (["data/a.json"] ++ "data/missing.json" :: ["data/b.json"])
  = Throw "File data pelatihan tidak ditemukan: data/missing.json".
Proof.
  apply (mergeTrainingData_first_failure (Sample.world Sample.disk)
           ["data/a.json"] ["data/b.json"] "data/missing.json"
           [JArr [ JObj [("input", JStr "q1"); ("output", JStr "a1")];
                   JObj [("prompt", JStr "q2"); ("completion", JStr "a2")] ]]).
  - repeat constructor.
  - reflexivity.
Defined.

Example mergeTrainingData_null_document :
  let env := Sample.world
    {| Sample.present := [ "data/null.json"; "data/b.json" ];
       Sample.listing := [ "null.json"; "b.json" ];
       Sample.contents := [ ("data/null.json", "null"); ("data/b.json", "B") ];
       Sample.documents :=
         [ ("null", JNull);
           ("B", JArr [ JObj [("input", JStr "q3"); ("output", JStr "a3")] ]) ] |} in
  mergeTrainingData env [ "data/b.json"; "data/null.json" ]
  = Throw "Cannot read properties of null (reading 'length')" ∧
  mergeTrainingData env [ "data/null.json"; "data/missing.json" ]
  = Throw "Cannot read properties of null (reading 'length')".
Proof. vm_compute. split; reflexivity. Qed.

(** The shape of a prepared example. *)
Lemma prepare_item_shape (item x : JSON) :
  prepare_item item = Ok x →
  x = JObj [ ("input", first_truthy (item_get item "input")
                         (item_get item "prompt") (JStr ""));
             ("output", first_truthy (item_get item "output")
                          (item_get item "completion") (JStr ""));
             ("metadata", first_truthy (item_get item "metadata") None (JObj [])) ].
Proof. destruct item; cbn; congruence. Qed.

Lemma prepare_item_null (item : JSON) :
  is_ok (prepare_item item) = false ↔ item = JNull.
Proof. destruct item; cbn; split; congruence. Qed.

(** X19: [prepareTrainingData] fails exactly when the data holds a [null]
    element; otherwise it returns one object per element, in order, each
    with exactly the fields [input], [output] and [metadata], where [input]
    is the element's truthy [input], else its truthy [prompt], else the
    empty string (and likewise [output] from [output] and [completion]). *)
Theorem prepareTrainingData_outcome data :
  (is_ok (prepareTrainingData data) = false ↔ JNull ∈ data) ∧
  ∀ out, prepareTrainingData data = Ok out →
    List.length out = List.length data ∧
    ∀ (n : nat) item, data !! n = Some item →
      out !! n
      = Some (JObj [ ("input", first_truthy (item_get item "input")
                                 (item_get item "prompt") (JStr ""));
                     ("output", first_truthy (item_get item "output")
                                  (item_get item "completion") (JStr ""));
                     ("metadata", first_truthy (item_get item "metadata") None
                                    (JObj [])) ]).
Proof.
  induction data as [|item rest [IHn IHo]].
  - split; [split; [done|by intros ?%elem_of_nil]|].
    intros out [= <-]. split; [done|]. intros n item H. done.
  - cbn [prepareTrainingData].
    pose proof (prepare_item_null item) as Hnull.
    destruct (prepare_item item) as [x|e] eqn:Ex.
    + apply prepare_item_shape in Ex.
      destruct (prepareTrainingData rest) as [xs|e] eqn:Er.
      * split.
        -- split; [done|]. intros [Heq|Hin]%elem_of_cons.
           ++ symmetry in Heq. by apply Hnull in Heq.
           ++ by apply IHn in Hin.
        -- intros out [= <-]. destruct (IHo xs eq_refl) as [L H].
           split; [cbn; by rewrite L|].
           intros [|n] it Hit; cbn in *.
           ++ injection Hit as <-. by rewrite Ex.
           ++ by apply H.
      * split; [|done]. split; [|done]. intros _.
        apply elem_of_cons. right. by apply IHn.
    + split; [|done]. split; [|done]. intros _.
      apply elem_of_cons. left. symmetry. by apply Hnull.
Qed.

Lemma prepareTrainingData_outcome_witness :
  prepareTrainingData
    [ JObj [("prompt", JStr "q"); ("completion", JStr "a")]; JStr "free text" ]
  = Ok [ JObj [("input", JStr "q"); ("output", JStr "a"); ("metadata", JObj [])];
         JObj [("input", JStr ""); ("output", JStr ""); ("metadata", JObj [])] ] ∧
  is_ok (prepareTrainingData [JObj []; JNull]) = false.
Proof.
  split; [reflexivity|].
  apply (prepareTrainingData_outcome [JObj []; JNull]).
  apply elem_of_cons. right. apply elem_of_cons. by left.
Defined.

(** What [first_truthy] returns is truthy or is the fallback. *)
Lemma first_truthy_again (a b : option JSON) (fallback : JSON) :
  first_truthy (Some (first_truthy a b fallback)) None fallback
  = first_truthy a b fallback.
Proof.
  unfold first_truthy.
  destruct a as [v|]; [destruct (truthy v) eqn:Tv|];
    try (by rewrite Tv);
    (destruct b as [w|]; [destruct (truthy w) eqn:Tw|]);
    try (by rewrite Tw); by destruct (truthy fallback).
Qed.

Lemma prepare_item_idempotent (item x : JSON) :
  prepare_item item = Ok x → prepare_item x = Ok x.
Proof.
  intros ->%prepare_item_shape.
  set (i := first_truthy (item_get item "input") (item_get item "prompt") (JStr "")).
  set (o := first_truthy (item_get item "output") (item_get item "completion") (JStr "")).
  set (md := first_truthy (item_get item "metadata") None (JObj [])).
  unfold prepare_item.
  change (item_get (JObj [("input", i); ("output", o); ("metadata", md)]) "input")
    with (Some i).
  change (item_get (JObj [("input", i); ("output", o); ("metadata", md)]) "prompt")
    with (@None JSON).
  change (item_get (JObj [("input", i); ("output", o); ("metadata", md)]) "output")
    with (Some o).
  change (item_get (JObj [("input", i); ("output", o); ("metadata", md)]) "completion")
    with (@None JSON).
  change (item_get (JObj [("input", i); ("output", o); ("metadata", md)]) "metadata")
    with (Some md).
  unfold i, o, md. by rewrite !first_truthy_again.
Qed.

(** X20: preparing is idempotent: data that [prepareTrainingData] returned
    is returned unchanged when it is prepared again (as [trainModel] does
    once per model). *)
Theorem prepareTrainingData_idempotent data (out : list JSON) :
  prepareTrainingData data = Ok out → prepareTrainingData out = Ok out.
Proof.
  revert out. induction data as [|item rest IH]; intros out.
  - by intros [= <-].
  - cbn [prepareTrainingData].
    destruct (prepare_item item) as [x|e] eqn:Ex; [|done].
    destruct (prepareTrainingData rest) as [xs|e] eqn:Er; [|done].
    intros [= <-]. cbn [prepareTrainingData].
    by rewrite (prepare_item_idempotent item x Ex), (IH xs eq_refl).
Qed.

Lemma prepareTrainingData_idempotent_witness :
  let prepared :=
    [ JObj [("input", JStr "q"); ("output", JStr "a"); ("metadata", JObj [])] ] in
  prepareTrainingData prepared = Ok prepared.
Proof.
  intros prepared.
  apply (prepareTrainingData_idempotent
           [ JObj [("prompt", JStr "q"); ("completion", JStr "a")] ]).
  reflexivity.
Defined.

End trainer_data.

Lemma init_registers_any (cfg : ModelManager.Config) (m : ModelManager.t) (b : bool) :
  (ModelManager.init cfg m).1 = Ok b →
  ModelManager.initialized (ModelManager.init cfg m).2 = true.
Proof.
  unfold ModelManager.init.
  destruct (ModelManager.llama cfg); [|done].
  destruct (ModelManager.mistral cfg); [|done].
  by destruct (ModelManager.gptj cfg).
Qed.

Section trainer_training.
Import Model Trainer.

Implicit Types (tr : Trainer.t) (mgr : ModelManager.t).

Lemma manager_eta mgr :
  ModelManager.initialized mgr = true →
  {| ModelManager.models := ModelManager.models mgr;
     ModelManager.initialized := true |} = mgr.
Proof. destruct mgr. cbn. by intros ->. Qed.

(** The loop over all models writes back the handles it read. *)
Lemma train_all_handles (entries : list (string * Handle)) (data : list JSON)
    (options : gmap string JSON) (now : Z) :
  ∀ results (ms : gmap string Handle),
    (∀ name h, (name, h) ∈ entries → ms !! name = Some h) →
    (train_all entries data options now results ms).2 = ms.
Proof.
  induction entries as [|[name h] rest IH]; intros results ms Hin; [done|].
  cbn [train_all]. destruct (prepareTrainingData data) as [prepared|e]; [|done].
  pose proof (train_same h prepared options now) as Th.
  assert (<[name := h]> ms = ms) as Eid.
  { apply insert_id, Hin, elem_of_cons. by left. }
  destruct (train h prepared options now) as [[r|e] h']; cbn in Th; subst h';
    rewrite Eid; [|done].
  apply IH. intros n' h' Hn'. apply Hin, elem_of_cons. by right.
Qed.

Lemma trainModel_registry_same tr mgr (modelType : string) (data : list JSON)
    (options : gmap string JSON) (now : Z) :
  ModelManager.initialized mgr = true →
  (trainModel tr mgr modelType data options now).2 = mgr.
Proof.
  intros Hi. unfold trainModel. rewrite Hi.
  case_bool_decide as Hall.
  - unfold ModelManager.getAllModels. rewrite Hi. cbn [negb].
    assert ((train_all (JS.entries (ModelManager.models mgr)) data
               (options ∪ trainingConfig tr) now ∅ (ModelManager.models mgr)).2
            = ModelManager.models mgr) as T.
    { apply train_all_handles. intros name h Hin. by apply elem_of_map_to_list. }
    destruct (train_all _ _ _ _ _ _) as [[results|e] ms]; cbn in T |- *;
      subst ms; by apply manager_eta.
  - unfold ModelManager.getModel, JS.get. rewrite Hi. cbn [negb].
    destruct (ModelManager.models mgr !! JS.toLowerCase modelType) as [h|] eqn:Hh.
    + destruct (prepareTrainingData data) as [prepared|e]; [|done].
      pose proof (train_same h prepared (options ∪ trainingConfig tr) now) as Th.
      destruct (train h prepared _ now) as [[r|e] h']; cbn in Th; subst h';
        cbn; rewrite insert_id by done; by apply manager_eta.
    + case_bool_decide; [|done].
      by destruct (prepareTrainingData data).
Qed.

(** X21: training never touches the handles.  On an initialized registry
    [trainModel], for one model or for all, whether it succeeds or raises,
    leaves the registry exactly as it was: no handle is loaded, unloaded or
    replaced. *)
Theorem trainModel_keeps_registry tr mgr (modelType : string) (data : list JSON)
    (options : gmap string JSON) (now : Z) :
  ModelManager.initialized mgr = true →
  (trainModel tr mgr modelType data options now).2 = mgr.
Proof.
  intros Hi. unfold trainModel. rewrite Hi.
  case_bool_decide as Hall.
  - unfold ModelManager.getAllModels. rewrite Hi. cbn [negb].
    assert ((train_all (JS.entries (ModelManager.models mgr)) data
               (options ∪ trainingConfig tr) now ∅ (ModelManager.models mgr)).2
            = ModelManager.models mgr) as T.
    { apply train_all_handles. intros name h Hin. by apply elem_of_map_to_list. }
    destruct (train_all _ _ _ _ _ _) as [[results|e] ms]; cbn in T |- *;
      subst ms; by apply manager_eta.
  - unfold ModelManager.getModel, JS.get. rewrite Hi. cbn [negb].
    destruct (ModelManager.models mgr !! JS.toLowerCase modelType) as [h|] eqn:Hh.
    + destruct (prepareTrainingData data) as [prepared|e]; [|done].
      pose proof (train_same h prepared (options ∪ trainingConfig tr) now) as Th.
      destruct (train h prepared _ now) as [[r|e] h']; cbn in Th; subst h';
        cbn; rewrite insert_id by done; by apply manager_eta.
    + case_bool_decide; [|done].
      by destruct (prepareTrainingData data).
Qed.

Lemma trainModel_keeps_registry_witness :
  let mgr := (ModelManager.loadAllModels (Sample.world Sample.disk)
                (ModelManager.init Sample.config ModelManager.new).2 0).2 in
  (trainModel Sample.trainer mgr "all" [JObj [("input", JStr "q")]] ∅ 5).2 = mgr ∧
  (trainModel Sample.trainer mgr "bert" [] ∅ 5).2 = mgr.
Proof.
  intros mgr.
  split; apply trainModel_keeps_registry; reflexivity.
Defined.

Lemma train_ok (h : Handle) (data : list JSON) (options : gmap string JSON) (now : Z) :
  ∃ r, train h data options now = (Ok r, h) ∧
       status r = "success" ∧ epochs r = epochs_or_1 options ∧ timestamp r = now.
Proof. unfold train. destruct (kind h); eauto. Qed.

Lemma prepareTrainingData_null (data : list JSON) :
  JNull ∈ data →
  prepareTrainingData data = Throw "Cannot read properties of null (reading 'input')".
Proof.
  induction data as [|item rest IH]; [by intros ?%elem_of_nil|].
  intros [Heq|Hin]%elem_of_cons.
  - by subst item.
  - cbn [prepareTrainingData]. rewrite (IH Hin). by destruct item.
Qed.




(** X23: training one model.  On an initialized registry, for a name other
    than [all]: a name that is neither registered nor inherited raises the
    not-found error, whatever the data; for a registered model, data with a
    [null] element raises before the model is asked, and any other data
    gives a result with status [success]; the registry is unchanged in
    every case. *)
Theorem trainModel_one tr mgr (modelType : string) (data : list JSON)
    (options : gmap string JSON) (now : Z) :
  ModelManager.initialized mgr = true →
  JS.toLowerCase modelType ≠ "all" →
  (ModelManager.models mgr !! JS.toLowerCase modelType = None →
   JS.toLowerCase modelType ∉ JS.Object_prototype →
   trainModel tr mgr modelType data options now
   = (Throw (ModelManager.notFound modelType), mgr)) ∧
  (∀ h, ModelManager.models mgr !! JS.toLowerCase modelType = Some h →
     (JNull ∈ data →
      trainModel tr mgr modelType data options now
      = (Throw "Cannot read properties of null (reading 'input')", mgr)) ∧
     (∀ prepared, prepareTrainingData data = Ok prepared →
        ∃ r, trainModel tr mgr modelType data options now
             = (Ok (TrainedOne modelType r now), mgr) ∧
             status r = "success" ∧
             epochs r = epochs_or_1 (options ∪ trainingConfig tr))).
Proof.
  intros Hi Hall.
  pose proof (trainModel_registry_same tr mgr modelType data options now Hi) as K.
  revert K. unfold trainModel. rewrite Hi, bool_decide_false by done.
  unfold ModelManager.getModel, JS.get. rewrite Hi. cbn [negb].
  intros K. split.
  - intros Hn Hp. rewrite Hn, bool_decide_false in K |- * by done. done.
  - intros h Hh. rewrite Hh in K |- *. split.
    + intros Hnull. by rewrite (prepareTrainingData_null data Hnull).
    + intros prepared Hprep. rewrite Hprep in K |- *.
      destruct (train_ok h prepared (options ∪ trainingConfig tr) now)
        as (r & E & Hs & He & _).
      rewrite E in K |- *. cbn in K. exists r. by rewrite K.
Qed.

Lemma trainModel_one_witness :
  let mgr := (ModelManager.init Sample.config ModelManager.new).2 in
  trainModel Sample.trainer mgr "bert" [JNull] ∅ 5
    = (Throw "Model 'bert' tidak ditemukan", mgr) ∧
  trainModel Sample.trainer mgr "Llama" [JNull] ∅ 5
    = (Throw "Cannot read properties of null (reading 'input')", mgr) ∧
  ∃ r, trainModel Sample.trainer mgr "Llama" [] ∅ 5 = (Ok (TrainedOne "Llama" r 5), mgr) ∧
       epochs r = JNum 3.
Proof.
  intros mgr.
  destruct (trainModel_one Sample.trainer mgr "bert" [JNull] ∅ 5
              ltac:(reflexivity) ltac:(discriminate)) as [Hnf _].
  destruct (trainModel_one Sample.trainer mgr "Llama" [JNull] ∅ 5
              ltac:(reflexivity) ltac:(discriminate)) as [_ Hreg].
  destruct (trainModel_one Sample.trainer mgr "Llama" [] ∅ 5
              ltac:(reflexivity) ltac:(discriminate)) as [_ Hreg'].
  split.
  { apply Hnf; [vm_compute; reflexivity|].
    apply (proj1 (bool_decide_eq_false _)). vm_compute. reflexivity. }
  destruct (Hreg _ ltac:(vm_compute; reflexivity)) as [Hnull _].
  split; [apply Hnull; apply elem_of_cons; by left|].
  destruct (Hreg' _ ltac:(vm_compute; reflexivity)) as [_ Hok].
  destruct (Hok [] eq_refl) as (r & E & _ & He).
  exists r. split; [exact E|]. rewrite He. vm_compute. reflexivity.
Defined.

(** X24: on a registry that is not initialized, [trainModel] and
    [saveModelCheckpoint] call [init()] first: when that fails they raise
    its error and do nothing else; when it succeeds they go on as on the
    registry [init()] built. *)
Theorem trainer_initializes_first (env : Env) tr mgr (modelType iso : string)
    (data : list JSON) (options : gmap string JSON) (now : Z) :
  ModelManager.initialized mgr = false →
  (∀ e, (ModelManager.init (managerConfig tr) mgr).1 = Throw e →
     trainModel tr mgr modelType data options now
       = (Throw e, (ModelManager.init (managerConfig tr) mgr).2) ∧
     saveModelCheckpoint env tr mgr modelType iso
       = (Throw e, (ModelManager.init (managerConfig tr) mgr).2)) ∧
  (∀ b, (ModelManager.init (managerConfig tr) mgr).1 = Ok b →
     trainModel tr mgr modelType data options now
       = trainModel tr (ModelManager.init (managerConfig tr) mgr).2
           modelType data options now ∧
     saveModelCheckpoint env tr mgr modelType iso
       = saveModelCheckpoint env tr (ModelManager.init (managerConfig tr) mgr).2
           modelType iso).
Proof.
  intros Hi. split.
  - intros e E. unfold trainModel, saveModelCheckpoint. rewrite Hi.
    destruct (ModelManager.init (managerConfig tr) mgr) as [[b|e'] mgr1];
      cbn in E; [done|]. by injection E as ->.
  - intros b E.
    pose proof (init_registers_any (managerConfig tr) mgr b E) as Hi1.
    unfold trainModel, saveModelCheckpoint. rewrite Hi, Hi1.
    by destruct (ModelManager.init (managerConfig tr) mgr) as [[b'|e'] mgr1].
Qed.

Lemma trainer_initializes_first_witness :
  let broken := {| dataDir := "data"; checkpointDir := "checkpoints";
                   trainingConfig := ∅;
                   managerConfig := {| ModelManager.llama := None;
                                       ModelManager.mistral := None;
                                       ModelManager.gptj := None |} |} in
  trainModel broken ModelManager.new "all" [] ∅ 5
    = (Throw ModelManager.undefinedConfig, ModelManager.new) ∧
  trainModel Sample.trainer ModelManager.new "all" [] ∅ 5
    = trainModel Sample.trainer
        (ModelManager.init Sample.config ModelManager.new).2 "all" [] ∅ 5.
Proof.
  intros broken.
  destruct (trainer_initializes_first (Sample.world Sample.disk) broken
              ModelManager.new "all" "t" [] ∅ 5 ltac:(reflexivity)) as [Hfail _].
  destruct (trainer_initializes_first (Sample.world Sample.disk) Sample.trainer
              ModelManager.new "all" "t" [] ∅ 5 ltac:(reflexivity)) as [_ Hok].
  split.
  - exact (proj1 (Hfail _ eq_refl)).
  - exact (proj1 (Hok true eq_refl)).
Defined.

Lemma replace_colons_length (s : string) :
  String.length (replace_colons s) = String.length s.
Proof. induction s as [|c s IH]; [done|]. cbn. by rewrite IH. Qed.

Lemma replace_colons_none (s : string) (n : nat) :
  String.get n (replace_colons s) ≠ Some ":"%char.
Proof.
  revert n. induction s as [|c s IH]; intros n; [done|].
  cbn. destruct n as [|n]; [|apply IH].
  case_bool_decide as Hc; [done|]. congruence.
Qed.

(** X25: a checkpoint.  On an initialized registry, for a registered
    model, [saveModelCheckpoint] asks the model to save under
    [checkpointDir] joined with [<modelType>_<timestamp>], where every colon
    of the ISO timestamp is replaced by a dash (same length, no colon left);
    when the directory exists and the metadata file can be written it
    returns that path; whatever happens the registry is unchanged; an
    unknown model raises the not-found error. *)
Theorem saveModelCheckpoint_path (env : Env) tr mgr (modelType iso : string) :
  ModelManager.initialized mgr = true →
  let target := path_join env (checkpointDir tr)
                  (modelType +:+ "_" +:+ replace_colons iso) in
  (saveModelCheckpoint env tr mgr modelType iso).2 = mgr ∧
  String.length (replace_colons iso) = String.length iso ∧
  (∀ n, String.get n (replace_colons iso) ≠ Some ":"%char) ∧
  (∀ h, ModelManager.models mgr !! JS.toLowerCase modelType = Some h →
     target ≠ "" →
     existsSync env (path_dirname env target) = true →
     writeFileSync env (target +:+ ".meta.json") = Ok () →
     (saveModelCheckpoint env tr mgr modelType iso).1 = Ok target) ∧
  (ModelManager.models mgr !! JS.toLowerCase modelType = None →
   JS.toLowerCase modelType ∉ JS.Object_prototype →
   (saveModelCheckpoint env tr mgr modelType iso).1
   = Throw (ModelManager.notFound modelType)).
Proof.
  intros Hi target.
  split; [|split; [apply replace_colons_length|split; [apply replace_colons_none|]]].
  - unfold saveModelCheckpoint. rewrite Hi.
    unfold ModelManager.getModel, JS.get. rewrite Hi. cbn [negb].
    destruct (ModelManager.models mgr !! JS.toLowerCase modelType) as [h|] eqn:Hh.
    + pose proof (save_same env h
                    (path_join env (checkpointDir tr)
                       (modelType +:+ "_" +:+ replace_colons iso))) as S.
      destruct (save env h _) as [[b|e] h']; cbn in S; subst h';
        cbn; rewrite insert_id by done; by apply manager_eta.
    + by case_bool_decide.
  - split.
    + intros h Hh Ht Hd Hw. unfold saveModelCheckpoint. rewrite Hi.
      unfold ModelManager.getModel, JS.get. rewrite Hi, Hh. cbn [negb].
      fold target. unfold save.
      rewrite bool_decide_false by done. rewrite Hd, Hw. done.
    + intros Hn Hp. unfold saveModelCheckpoint. rewrite Hi.
      unfold ModelManager.getModel, JS.get. rewrite Hi, Hn. cbn [negb].
      by rewrite bool_decide_false.
Qed.

Lemma saveModelCheckpoint_path_witness :
  let mgr := (ModelManager.init Sample.config ModelManager.new).2 in
  let env := Sample.world
    {| Sample.present := ["checkpoints/gptj_2026-01-02T03-04-05.000Z"];
       Sample.listing := []; Sample.contents := []; Sample.documents := [] |} in
  saveModelCheckpoint env Sample.trainer mgr "gptj" "2026-01-02T03:04:05.000Z"
  = (Ok "checkpoints/gptj_2026-01-02T03-04-05.000Z", mgr).
Proof.
  intros mgr env.
  destruct (saveModelCheckpoint_path env Sample.trainer mgr "gptj"
              "2026-01-02T03:04:05.000Z" ltac:(reflexivity))
    as (Hm & _ & _ & Hok & _).
  pose proof (Hok _ ltac:(vm_compute; reflexivity) ltac:(discriminate)
                ltac:(reflexivity) ltac:(reflexivity)) as E.
  destruct (saveModelCheckpoint env Sample.trainer mgr "gptj" _) as [r m'].
  cbn in Hm, E. by rewrite Hm, E.
Defined.

End trainer_training.

Section trainer_files.
Import Trainer.

Lemma string_length_app (a b : string) :
  String.length (a +:+ b) = (String.length a + String.length b)%nat.
Proof.
  induction a as [|c a IH]; [done|].
  change (S (String.length (a +:+ b)) = S (String.length a + String.length b)).
  by rewrite IH.
Qed.

(** Any string is what [slice] cuts off followed by what it returns. *)
Lemma slice_split (n : nat) (s : string) : ∃ pre, s = pre +:+ JS.slice n s.
Proof.
  revert n. induction s as [|c s IH]; intros [|n].
  - by exists "".
  - by exists "".
  - by exists "".
  - destruct (IH n) as [pre E]. exists (String c pre).
    change (String c s = String c (pre +:+ JS.slice n s)). by rewrite <- E.
Qed.

Lemma endsWith_spec (s suffix : string) :
  JS.endsWith s suffix = true ↔ ∃ pre, s = pre +:+ suffix.
Proof.
  unfold JS.endsWith. rewrite bool_decide_eq_true. split.
  - intros E. destruct (slice_split (String.length s - String.length suffix) s)
      as [pre Hpre]. exists pre. by rewrite E in Hpre.
  - intros [pre ->]. rewrite string_length_app.
    replace (String.length pre + String.length suffix - String.length suffix)%nat
      with (String.length pre) by lia.
    apply slice_app.
Qed.

(** X26: [findTrainingDataFiles] returns, in the order of the directory
    listing, the listed names that end in [.json] (in lower case, [.json]
    itself included), each joined to the data directory, and nothing else;
    an error of the directory read is passed on. *)
Theorem findTrainingDataFiles_json (env : Env) (tr : Trainer.t) :
  (∀ e, readdirSync env (dataDir tr) = Throw e →
     findTrainingDataFiles env tr = Throw e) ∧
  (∀ names, readdirSync env (dataDir tr) = Ok names →
     ∃ kept,
       findTrainingDataFiles env tr = Ok (path_join env (dataDir tr) <$> kept) ∧
       kept `sublist_of` names ∧
       (∀ name, name ∈ kept ↔ name ∈ names ∧ ∃ pre, name = pre +:+ ".json")).
Proof.
  unfold findTrainingDataFiles. split.
  - by intros e ->.
  - intros names ->. eexists. split; [reflexivity|]. split.
    + apply sublist_filter.
    + intros name. rewrite list_elem_of_filter, endsWith_spec. tauto.
Qed.

Lemma findTrainingDataFiles_json_witness :
  let env := Sample.world
    {| Sample.present := [];
       Sample.listing := ["a.json"; "b.JSON"; ".json"; "json"; "c.json.bak"];
       Sample.contents := []; Sample.documents := [] |} in
  ∃ kept,
    findTrainingDataFiles env Sample.trainer
      = Ok (path_join env "data" <$> kept) ∧
    "a.json" ∈ kept ∧ ".json" ∈ kept ∧ ("b.JSON" ∉ kept) ∧ ("c.json.bak" ∉ kept).
Proof.
  intros env.
  destruct (findTrainingDataFiles_json env Sample.trainer) as [_ H].
  destruct (H _ eq_refl) as (kept & E & _ & Hin).
  exists kept. split; [exact E|].
  split; [apply Hin; split; [repeat constructor|by exists "a"]|].
  split; [apply Hin; split; [repeat constructor|by exists ""]|].
  split; intros [_ Hpre]%Hin; apply endsWith_spec in Hpre; discriminate Hpre.
Defined.

(** X27: scheduling and cancelling.  [schedulePeriodicTraining] returns the
    identifier of a new interval that carries the given model type and
    period; [cancelPeriodicTraining] always returns [true]; cancelling that
    identifier removes that interval and no other, after which its tick
    runs nothing and changes nothing; cancelling an identifier that is not
    set changes nothing. *)
Theorem schedule_then_cancel (env : Env) (tr : Trainer.t) (sys : System)
    (modelType : string) (interval now later : Z) (other : nat) :
  let s := schedulePeriodicTraining (timers sys) modelType interval now in
  let id := next_id (timers sys) in
  let c := cancelPeriodicTraining s.2 id in
  s.1 = Ok {| intervalId := id; sched_modelType := modelType;
              sched_interval := interval; sched_timestamp := now |} ∧
  active s.2 !! id = Some {| job_modelType := modelType; job_interval := interval |} ∧
  c.1 = Ok true ∧
  active c.2 !! id = None ∧
  (other ≠ id → active c.2 !! other = active (timers sys) !! other) ∧
  tick env tr {| manager := manager sys; timers := c.2 |} id later
    = (None, {| manager := manager sys; timers := c.2 |}) ∧
  (active (timers sys) !! other = None →
   (cancelPeriodicTraining (timers sys) other).1 = Ok true ∧
   active (cancelPeriodicTraining (timers sys) other).2 = active (timers sys)).
Proof.
  cbn. repeat split.
  - apply lookup_insert_eq.
  - apply lookup_delete_eq.
  - intros Hne. by rewrite lookup_delete_ne, lookup_insert_ne.
  - unfold tick. cbn. by rewrite lookup_delete_eq.
  - by apply delete_id.
Qed.

Lemma schedule_then_cancel_witness :
  let sys := {| manager := ModelManager.new;
                timers := (schedulePeriodicTraining {| active := ∅; next_id := 0 |}
                             "all" 100 0).2 |} in
  let s := schedulePeriodicTraining (timers sys) "llama" 500 1 in
  let c := cancelPeriodicTraining s.2 1 in
  active c.2 !! 1%nat = None ∧
  active c.2 !! 0%nat = Some {| job_modelType := "all"; job_interval := 100 |} ∧
  active (cancelPeriodicTraining (timers sys) 7).2 = active (timers sys).
Proof.
  intros sys s c.
  destruct (schedule_then_cancel (Sample.world Sample.disk) Sample.trainer sys
              "llama" 500 1 2 0) as (_ & _ & _ & Hgone & Hother & _ & _).
  destruct (schedule_then_cancel (Sample.world Sample.disk) Sample.trainer sys
              "llama" 500 1 2 7) as (_ & _ & _ & _ & _ & _ & Hunset).
  split; [exact Hgone|]. split.
  - exact (eq_trans (Hother ltac:(done)) eq_refl).
  - apply Hunset. reflexivity.
Defined.

End trainer_files.

(** ** The routes of the API server *)

Section server.
Import Model Server.

Implicit Types (su : Setup) (env : Env) (st : State) (req : Request).

Lemma startsWith_app (s sub b : string) :
  startsWith s sub = true → startsWith (s +:+ b) sub = true.
Proof.
  revert s. induction sub as [|p sub IH]; intros s;
    [intros _; by destruct (s +:+ b)|].
  destruct s as [|c s]; [done|].
  change (bool_decide (p = c) && startsWith s sub = true →
          bool_decide (p = c) && startsWith (s +:+ b) sub = true).
  intros [H1 H2]%andb_prop. rewrite H1. cbn. by apply IH.
Qed.

Lemma includes_app_l (s sub b : string) :
  includes s sub = true → includes (s +:+ b) sub = true.
Proof.
  induction s as [|c s IH].
  - destruct sub; [|done]. intros _. by destruct b.
  - change (startsWith (String c s) sub || includes s sub = true →
            startsWith (String c s +:+ b) sub || includes (s +:+ b) sub = true).
    intros [H|H]%orb_prop.
    + by rewrite (startsWith_app _ _ b H).
    + rewrite (IH H). apply orb_true_r.
Qed.

Lemma includes_app_r (a s sub : string) :
  includes s sub = true → includes (a +:+ s) sub = true.
Proof.
  intros H. induction a as [|c a IH]; [done|].
  change (startsWith (String c (a +:+ s)) sub || includes (a +:+ s) sub = true).
  rewrite IH. apply orb_true_r.
Qed.

(** Both errors that say [tidak ditemukan] are answered 404. *)
Lemma failure_notFound (name : string) :
  failure (ModelManager.notFound name)
  = {| status := 404; body := ErrorBody (ModelManager.notFound name) |}.
Proof.
  unfold failure, ModelManager.notFound.
  rewrite includes_app_r; [done|]. by apply includes_app_r.
Qed.

Lemma failure_missing_path (p : string) :
  failure ("Model path tidak ditemukan: " +:+ p)
  = {| status := 404; body := ErrorBody ("Model path tidak ditemukan: " +:+ p) |}.
Proof. unfold failure. by rewrite includes_app_l. Qed.

(** X28: authentication comes first.  A request without an
    [Authorization] header, with one that does not start with [Bearer ], or
    whose token [jwt.verify] refuses, is answered 401 by every protected
    route, and neither the registry nor the rate limiter is touched: such a
    request costs the client no quota. *)
Theorem unauthenticated_changes_nothing su env st req (now finished : Z) :
  (authorization req = None ∨
   ∃ header, authorization req = Some header ∧
     (startsWith header "Bearer " = false ∨
      is_ok (jwt_verify su (token_of header)) = false)) →
  ∃ r, status r = 401 ∧
    generate_route su env st req now finished = (r, st) ∧
    load_route su env st req now = (r, st) ∧
    unload_route su st req now = (r, st) ∧
    models_route su st req now = (r, st).
Proof.
  intros H.
  assert (∃ r, status r = 401 ∧ authenticate su req = Some r) as (r & Hs & Ha).
  { unfold authenticate. destruct H as [Hnone|(header & Hsome & Hbad)].
    - rewrite Hnone. eexists. split; [|reflexivity]. reflexivity.
    - rewrite Hsome. destruct Hbad as [Hb|Hv].
      + rewrite Hb. cbn [negb]. eexists. split; [|reflexivity]. reflexivity.
      + destruct (startsWith header "Bearer "); cbn [negb];
          [|eexists; split; [|reflexivity]; reflexivity].
        destruct (jwt_verify su (token_of header)); [done|].
        eexists. split; [|reflexivity]. reflexivity. }
  exists r. split; [exact Hs|].
  unfold generate_route, load_route, unload_route, models_route. by rewrite Ha.
Qed.

Lemma unauthenticated_changes_nothing_witness :
  let req := {| ip := "10.0.0.1"; authorization := Some "Bearer forged";
                param_model := "all"; body_prompt := Some "halo";
                body_options := ∅ |} in
  ∃ r, status r = 401 ∧
    generate_route sample_setup (Sample.world Sample.disk) fresh req 0 1 = (r, fresh).
Proof.
  intros req.
  destruct (unauthenticated_changes_nothing sample_setup (Sample.world Sample.disk)
              fresh req 0 1) as (r & Hs & Hg & _).
  { right. exists "Bearer forged". split; [reflexivity|]. right. reflexivity. }
  exists r. split; [exact Hs|exact Hg].
Defined.

(** X29: the quota of the generate route.  For an authenticated request:
    when the limiter refuses, the answer is 429 and the registry is not
    touched; when it lets the request through, the request is recorded
    against the client whatever the handler answers then; and a request
    without a prompt (absent or empty) is answered 400 without touching the
    registry, but was recorded all the same. *)
Theorem generate_route_quota su env st req (now finished : Z) :
  authenticate su req = None →
  let kept := RateLimiter.userRequests (rateLimiting su) (requests st) (ip req) now in
  let r := generate_route su env st req now finished in
  (RateLimiter.max (rateLimiting su) ≤ Z.of_nat (List.length kept) →
     status r.1 = 429 ∧ manager r.2 = manager st ∧
     ∀ k, RateLimiter.stored (requests r.2) k = RateLimiter.stored (requests st) k) ∧
  (Z.of_nat (List.length kept) < RateLimiter.max (rateLimiting su) →
     RateLimiter.stored (requests r.2) (ip req) = kept ++ [now] ∧
     r.1 = (generate_handler su env (manager st) req finished).1 ∧
     manager r.2 = (generate_handler su env (manager st) req finished).2 ∧
     ((body_prompt req = None ∨ body_prompt req = Some "") →
        status r.1 = 400 ∧ manager r.2 = manager st)).
Proof.
  intros Ha kept r. unfold r, generate_route. rewrite Ha. split.
  - intros H. destruct (rateLimiter_reject _ _ _ _ H) as [Er Es].
    destruct (RateLimiter.rateLimiter _ _ _ _) as [d q]. cbn in Er, Es. subst d.
    by cbn.
  - intros H. destruct (rateLimiter_next _ _ _ _ H) as (Er & Es & _).
    destruct (RateLimiter.rateLimiter _ _ _ _) as [d q]. cbn in Er, Es. subst d.
    destruct (generate_handler su env (manager st) req finished) as [x m'] eqn:Eh.
    cbn. split; [exact Es|]. split; [done|]. split; [done|].
    intros Hp. revert Eh. unfold generate_handler.
    destruct Hp as [->| ->]; by intros [= <- <-].
Qed.

Lemma generate_route_quota_witness :
  let req := sample_request "llama" None in
  let r := generate_route sample_setup (Sample.world Sample.disk) fresh req 5 6 in
  status r.1 = 400 ∧ manager r.2 = ModelManager.new ∧
  RateLimiter.stored (requests r.2) "10.0.0.1" = [5].
Proof.
  intros req r.
  destruct (generate_route_quota sample_setup (Sample.world Sample.disk) fresh req 5 6
              ltac:(reflexivity)) as [_ Hpass].
  destruct (Hpass ltac:(vm_compute; reflexivity)) as (Hs & _ & _ & H400).
  destruct (H400 ltac:(by left)) as [S M].
  split; [exact S|]. split; [exact M|exact Hs].
Defined.

(** X30: the answer of the generate handler for one model, on an
    initialized registry and with a prompt.  A name that is neither
    registered nor inherited is answered 404 with the not-found message.  A
    registered model that is not loaded and whose model path does not exist
    is answered 404 as well, with the missing-path message of [load()],
    because the status is chosen by looking for [tidak ditemukan] in the
    message.  Otherwise a text is answered 200, and an error is answered
    404 or 500 by that same test of its message.  A name found only on
    [Object.prototype] is answered 500. *)
Theorem generate_handler_status su env (mgr : ModelManager.t) req
    (prompt : string) (now : Z) :
  ModelManager.initialized mgr = true →
  body_prompt req = Some prompt → prompt ≠ "" →
  JS.toLowerCase (param_model req) ≠ "all" →
  let name := JS.toLowerCase (param_model req) in
  let answer := (generate_handler su env mgr req now).1 in
  (ModelManager.models mgr !! name = None →
     (name ∉ JS.Object_prototype →
        generate_handler su env mgr req now
        = ({| status := 404;
              body := ErrorBody (ModelManager.notFound (param_model req)) |}, mgr)) ∧
     (name ∈ JS.Object_prototype →
        answer = {| status := 500;
                    body := ErrorBody "modelInstance.generate is not a function" |})) ∧
  (∀ h, ModelManager.models mgr !! name = Some h →
     (isLoaded h = false → existsSync env (modelPath h) = false →
        answer = {| status := 404;
                    body := ErrorBody ("Model path tidak ditemukan: " +:+ modelPath h) |}) ∧
     (∀ text, (generate env h prompt (body_options req)).1 = Ok text →
        answer = {| status := 200;
                    body := GeneratedBody (param_model req) prompt text now |}) ∧
     (∀ e, (generate env h prompt (body_options req)).1 = Throw e →
        answer = {| status := if includes e "tidak ditemukan" then 404 else 500;
                    body := ErrorBody e |})).
Proof.
  intros Hi Hp Hne Hall name answer.
  assert (generate_handler su env mgr req now
          = match ModelManager.getModel mgr (param_model req) with
            | Throw e => (failure e, mgr)
            | Ok (JS.Own h) =>
                match generate env h prompt (body_options req) with
                | (Throw e, h') => (failure e, with_handle mgr (param_model req) h')
                | (Ok text, h') =>
                    ({| status := 200;
                        body := GeneratedBody (param_model req) prompt text now |},
                     with_handle mgr (param_model req) h')
                end
            | Ok _ => (failure "modelInstance.generate is not a function", mgr)
            end) as E.
  { unfold generate_handler, ensure_init. rewrite Hp, Hi.
    rewrite bool_decide_false by done. by destruct prompt. }
  unfold answer. rewrite E. unfold ModelManager.getModel, JS.get. rewrite Hi.
  cbn [negb]. fold name. split.
  - intros ->. split; intros Hn.
    + rewrite bool_decide_false by done. by rewrite failure_notFound.
    + by rewrite bool_decide_true.
  - intros h ->. split; [|split].
    + intros L Hx. unfold generate, load. rewrite L, Hx. cbn.
      by rewrite failure_missing_path.
    + intros text G. by destruct (generate env h prompt (body_options req)) as [[t|e] h'];
        cbn in G; simplify_eq.
    + intros e G. by destruct (generate env h prompt (body_options req)) as [[t|e'] h'];
        cbn in G; simplify_eq.
Qed.

Lemma generate_handler_status_witness :
  let mgr := (ModelManager.init Sample.config ModelManager.new).2 in
  let bare := Sample.world Sample.bare_disk in
  (generate_handler sample_setup bare mgr (sample_request "bert" (Some "halo")) 9).1
    = {| status := 404; body := ErrorBody "Model 'bert' tidak ditemukan" |} ∧
  (generate_handler sample_setup bare mgr (sample_request "Llama" (Some "halo")) 9).1
    = {| status := 404;
         body := ErrorBody "Model path tidak ditemukan: ./models/llama2" |} ∧
  (generate_handler sample_setup bare mgr (sample_request "constructor" (Some "halo")) 9).1
    = {| status := 500; body := ErrorBody "modelInstance.generate is not a function" |}.
Proof.
  intros mgr bare.
  destruct (generate_handler_status sample_setup bare mgr
              (sample_request "bert" (Some "halo")) "halo" 9
              ltac:(reflexivity) ltac:(reflexivity) ltac:(discriminate)
              ltac:(discriminate)) as [Hnone _].
  destruct (generate_handler_status sample_setup bare mgr
              (sample_request "Llama" (Some "halo")) "halo" 9
              ltac:(reflexivity) ltac:(reflexivity) ltac:(discriminate)
              ltac:(discriminate)) as [_ Hreg].
  destruct (generate_handler_status sample_setup bare mgr
              (sample_request "constructor" (Some "halo")) "halo" 9
              ltac:(reflexivity) ltac:(reflexivity) ltac:(discriminate)
              ltac:(discriminate)) as [Hproto _].
  split; [|split].
  - destruct (Hnone ltac:(vm_compute; reflexivity)) as [H404 _].
    rewrite H404; [reflexivity|].
    apply (proj1 (bool_decide_eq_false _)). vm_compute. reflexivity.
  - destruct (Hreg _ ltac:(vm_compute; reflexivity)) as [Hmissing _].
    apply Hmissing; reflexivity.
  - destruct (Hproto ltac:(vm_compute; reflexivity)) as [_ H500].
    apply H500. repeat constructor.
Defined.

End server.

(** ** The states of the registry under the trainer and the routes *)

Section registry_states.
Import Model ModelManager.

Implicit Types (mgr : ModelManager.t).

Lemma getModel_own mgr (name : string) h :
  getModel mgr name = Ok (JS.Own h) →
  models mgr !! JS.toLowerCase name = Some h.
Proof.
  unfold getModel, JS.get. destruct (initialized mgr); [|done]. cbn [negb].
  destruct (models mgr !! JS.toLowerCase name) as [h0|]; [by intros [= ->]|].
  by case_bool_decide.
Qed.

Lemma reachable_eta mgr :
  reachable mgr →
  reachable {| models := models mgr; initialized := initialized mgr |}.
Proof. by destruct mgr. Qed.

Lemma reachable_first_use (cfg : Config) mgr :
  reachable mgr →
  reachable (if initialized mgr then (Ok true, mgr) else init cfg mgr).2.
Proof.
  intros R. destruct (initialized mgr); [exact R|by apply reachable_init].
Qed.

Lemma reachable_with_handle mgr (name : string) h h' :
  reachable mgr → getModel mgr name = Ok (JS.Own h) →
  reachable (Server.with_handle mgr name h').
Proof.
  intros R G. unfold Server.with_handle.
  by apply (reachable_handle mgr _ h h'); [|apply getModel_own].
Qed.

(** The trainer leaves the registry in a state it can be in. *)
Lemma reachable_trainModel (tr : Trainer.t) mgr (modelType : string)
    (data : list JSON) (options : gmap string JSON) (now : Z) :
  reachable mgr →
  reachable (Trainer.trainModel tr mgr modelType data options now).2.
Proof.
  intros R. unfold Trainer.trainModel.
  pose proof (reachable_first_use (Trainer.managerConfig tr) mgr R) as R1.
  destruct (if initialized mgr then _ else _) as [[b|e] mgr1]; [|exact R1].
  cbn [snd] in R1. case_bool_decide as Hall.
  - unfold getAllModels. destruct (initialized mgr1) eqn:Hi; [|exact R1].
    cbn [negb].
    assert ((Trainer.train_all (JS.entries (models mgr1)) data
               (options ∪ Trainer.trainingConfig tr) now ∅ (models mgr1)).2
            = models mgr1) as T.
    { apply train_all_handles. intros name h Hin. by apply elem_of_map_to_list. }
    destruct (Trainer.train_all _ _ _ _ _ _) as [[results|e] ms]; cbn in T |- *;
      subst ms; rewrite <- Hi; by apply reachable_eta.
  - destruct (getModel mgr1 modelType) as [[h|inherited|]|e] eqn:G;
      try exact R1.
    + destruct (Trainer.prepareTrainingData data) as [prepared|e]; [|exact R1].
      destruct (train h prepared _ now) as [[r|e] h']; cbn [snd];
        by apply (reachable_handle mgr1 _ h h'); [|apply getModel_own].
    + by destruct (Trainer.prepareTrainingData data).
    + by destruct (Trainer.prepareTrainingData data).
Qed.

Lemma reachable_saveModelCheckpoint (env : Env) (tr : Trainer.t) mgr
    (modelType iso : string) :
  reachable mgr →
  reachable (saveModelCheckpoint env tr mgr modelType iso).2.
Proof.
  intros R. unfold saveModelCheckpoint.
  pose proof (reachable_first_use (Trainer.managerConfig tr) mgr R) as R1.
  destruct (if initialized mgr then _ else _) as [[b|e] mgr1]; [|exact R1].
  cbn [snd] in R1.
  destruct (getModel mgr1 modelType) as [[h|inherited|]|e] eqn:G; try exact R1.
  destruct (save env h _) as [[r|e] h']; cbn [snd];
    by apply (reachable_handle mgr1 _ h h'); [|apply getModel_own].
Qed.

Lemma reachable_firing (env : Env) (tr : Trainer.t) mgr (modelType : string)
    (now : Z) :
  reachable mgr → reachable (Trainer.firing env tr mgr modelType now).2.
Proof.
  intros R. unfold Trainer.firing, Trainer.firing_body.
  destruct (Trainer.findTrainingDataFiles env tr) as [files|e]; [|exact R].
  case_bool_decide; [exact R|].
  destruct (Trainer.mergeTrainingData env files) as [merged|e]; [|exact R].
  pose proof (reachable_trainModel tr mgr modelType merged ∅ now R) as RT.
  by destruct (Trainer.trainModel tr mgr modelType merged ∅ now) as [[r|e] mgr'].
Qed.

(** So does every route of the server. *)
Lemma reachable_generate_route (su : Server.Setup) (env : Env)
    (st : Server.State) (req : Server.Request) (now finished : Z) :
  reachable (Server.manager st) →
  reachable (Server.manager (Server.generate_route su env st req now finished).2).
Proof.
  intros R. unfold Server.generate_route.
  destruct (Server.authenticate su req); [exact R|].
  destruct (RateLimiter.rateLimiter _ _ _ _) as [[|] requests']; [|exact R].
  assert (reachable (Server.generate_handler su env (Server.manager st) req finished).2)
    as RH.
  { unfold Server.generate_handler.
    destruct (Server.body_prompt req) as [[|a prompt]|]; [exact R| |exact R].
    pose proof (reachable_first_use (Server.modelsConfig su) _ R) as R1.
    unfold Server.ensure_init.
    destruct (if initialized (Server.manager st) then _ else _) as [[b|e] mgr1];
      [|exact R1].
    cbn [snd] in R1. case_bool_decide.
    - pose proof (reachable_generateFromAllModels env mgr1 (String a prompt)
                    (Server.body_options req) finished R1) as RG.
      by destruct (generateFromAllModels env mgr1 _ _ finished) as [[data|e] mgr2].
    - destruct (getModel mgr1 (Server.param_model req)) as [[h|inherited|]|e] eqn:G;
        try exact R1.
      destruct (generate env h _ _) as [[text|e] h']; cbn [snd];
        by apply (reachable_with_handle mgr1 _ h h'). }
  by destruct (Server.generate_handler su env (Server.manager st) req finished).
Qed.

Lemma reachable_load_route (su : Server.Setup) (env : Env)
    (st : Server.State) (req : Server.Request) (now : Z) :
  reachable (Server.manager st) →
  reachable (Server.manager (Server.load_route su env st req now).2).
Proof.
  intros R. unfold Server.load_route.
  destruct (Server.authenticate su req); [exact R|].
  pose proof (reachable_first_use (Server.modelsConfig su) _ R) as R1.
  unfold Server.ensure_init.
  destruct (if initialized (Server.manager st) then _ else _) as [[b|e] mgr1];
    [|exact R1].
  cbn [snd] in R1. case_bool_decide.
  - pose proof (reachable_loadAllModels env mgr1 now R1) as RG.
    by destruct (loadAllModels env mgr1 now) as [[data|e] mgr2].
  - destruct (getModel mgr1 (Server.param_model req)) as [[h|inherited|]|e] eqn:G;
      try exact R1.
    destruct (load env h) as [[ok|e] h']; cbn [snd Server.manager];
      by apply (reachable_with_handle mgr1 _ h h').
Qed.

Lemma reachable_unload_route (su : Server.Setup) (st : Server.State)
    (req : Server.Request) (now : Z) :
  reachable (Server.manager st) →
  reachable (Server.manager (Server.unload_route su st req now).2).
Proof.
  intros R. unfold Server.unload_route.
  destruct (Server.authenticate su req); [exact R|].
  pose proof (reachable_first_use (Server.modelsConfig su) _ R) as R1.
  unfold Server.ensure_init.
  destruct (if initialized (Server.manager st) then _ else _) as [[b|e] mgr1];
    [|exact R1].
  cbn [snd] in R1. case_bool_decide.
  - pose proof (reachable_unloadAllModels mgr1 now R1) as RG.
    by destruct (unloadAllModels mgr1 now) as [[data|e] mgr2].
  - destruct (getModel mgr1 (Server.param_model req)) as [[h|inherited|]|e] eqn:G;
      try exact R1.
    destruct (unload h) as [[ok|e] h']; cbn [snd Server.manager];
      by apply (reachable_with_handle mgr1 _ h h').
Qed.

Lemma reachable_models_route (su : Server.Setup) (st : Server.State)
    (req : Server.Request) (now : Z) :
  reachable (Server.manager st) →
  reachable (Server.manager (Server.models_route su st req now).2).
Proof.
  intros R. unfold Server.models_route.
  destruct (Server.authenticate su req); [exact R|].
  pose proof (reachable_first_use (Server.modelsConfig su) _ R) as R1.
  unfold Server.ensure_init.
  destruct (if initialized (Server.manager st) then _ else _) as [[b|e] mgr1];
    [|exact R1].
  cbn [snd] in R1.
  by destruct (getModelInfo mgr1 now) as [[info t]|e].
Qed.

End registry_states.
